(** * Waterboy: the moisture-reading HTTP service (backend/src/server.js)

    A shallow embedding of the five route handlers of [server.js] and of the
    SQL statements they send to the [readings] table, followed by the
    properties of the service that the specification states.

    Conventions of the model.
    - A JavaScript value is a [jsval]; [req.body] and [req.query] are objects
      used as maps from property names to values ([gmap string jsval]); a
      property that is not there reads as [VUndefined].
    - The [readings] table is a list of [Reading] records in insertion order,
      together with the next value of the [id] sequence.  The store clock
      ([NOW()]) is an argument of the handlers that use it, in microseconds.
    - [pool.query] either resolves, or rejects with a message, which the
      [try]/[catch] of every handler turns into a 500 response.  Only
      rejections caused by the statement itself are modelled; a lost
      connection is not.
    - The store reads every parameter from its text form.  The spellings the
      model interprets are listed at each conversion; any other spelling is
      [Beyond] the model, and a handler then has no modelled result ([None]),
      rather than an invented one.
    - A number is the rational that its literal denotes; the rounding of
      doubles is not modelled, and the wire form of a result (a numeric
      column or a date as text) is not either.  A count, a bigint, is the
      decimal text the driver makes of it.
    - Text is ordered character by character, and the session time zone is
      UTC. *)

From Stdlib Require Import ZArith QArith String Ascii OrdersEx.
From Stdlib Require Import DecimalString DecimalPos DecimalN.
From stdpp Require Import base option list sorting strings gmap.

Local Open Scope Z_scope.
Local Open Scope string_scope.
Local Open Scope list_scope.
Set Warnings "-register-all".

(** ** JavaScript values *)

Inductive jsval : Type :=
| VUndefined
| VNull
| VBool (b : bool)
| VNum (q : Q)
| VStr (s : string)
| VDate (t : Z)
| VArr (items : list jsval)
| VObj (fields : list (string * jsval)).

(** [!v] is [negb (truthy v)]: undefined, null, false, 0 and the empty string
    are falsy, everything else is truthy. *)
Definition truthy (v : jsval) : bool :=
  match v with
  | VUndefined | VNull => false
  | VBool b => b
  | VNum q => negb (Qeq_bool q 0)
  | VStr s => negb (String.eqb s "")
  | VDate _ | VArr _ | VObj _ => true
  end.

(** [a || b] *)
Definition js_or (a b : jsval) : jsval := if truthy a then a else b.

(** [o.k] for an object used as a map ([req.body], [req.query]). *)
Definition prop (o : gmap string jsval) (k : string) : jsval :=
  match o !! k with
  | Some v => v
  | None => VUndefined
  end.

(** [o.k] for an object literal or a result row. *)
Fixpoint assoc (k : string) (fields : list (string * jsval)) : jsval :=
  match fields with
  | [] => VUndefined
  | (k', v) :: rest => if String.eqb k k' then v else assoc k rest
  end.

Definition field (k : string) (v : jsval) : jsval :=
  match v with
  | VObj fields => assoc k fields
  | _ => VUndefined
  end.

(** [k in o] for an object literal or a result row. *)
Definition has_field (k : string) (v : jsval) : bool :=
  match v with
  | VObj fields => bool_decide (k ∈ fields.*1)
  | _ => false
  end.

Definition num_of_Z (z : Z) : jsval := VNum (inject_Z z).
Definition num_of_nat (n : nat) : jsval := num_of_Z (Z.of_nat n).

(** The integer a number stands for, if it is one. *)
Definition integer_of (q : Q) : option Z :=
  let r := Qred q in
  if Pos.eqb (Qden r) 1 then Some (Qnum r) else None.

(** ** Outcomes of a statement *)

(** [Ok a]: the statement ran and gave [a]; [Err msg]: the store rejected
    it with [msg]; [Beyond]: the statement is outside what the model
    interprets. *)
Inductive outcome (A : Type) : Type :=
| Ok (a : A)
| Err (msg : string)
| Beyond.
Arguments Ok {A} a.
Arguments Err {A} msg.
Arguments Beyond {A}.

#[global] Instance outcome_ret : MRet outcome := fun A a => Ok a.
#[global] Instance outcome_bind : MBind outcome := fun A B k o =>
  match o with
  | Ok a => k a
  | Err msg => Err msg
  | Beyond => Beyond
  end.

(** ** The store *)

(** Modelled from the spec: the [readings] table (section 6, store schema),
    which the repository creates outside [server.js]: [id] auto-increment
    key, [pot_id] text not null, [location] text nullable, [raw_value] and
    [moisture_percent] numeric not null, [timestamp] not null. *)
Record Reading : Type := mkReading {
  id : Z;
  pot_id : string;
  location : option string;
  raw_value : Q;
  moisture_percent : Q;
  timestamp : Z
}.

Record Store : Type := mkStore {
  rows : list Reading;
  next_id : Z
}.

(** *** Reading parameters *)

(** A non-empty string of decimal digits. *)
Definition digits_in (s : string) : option N :=
  if String.eqb s "" then None
  else option_map N.of_uint (NilEmpty.uint_of_string s).

(** A parameter bound to a text column.  null and undefined are sent as
    NULL, a string as itself; the text forms of other values are not
    modelled. *)
Definition text_param (v : jsval) : outcome (option string) :=
  match v with
  | VUndefined | VNull => Ok None
  | VStr s => Ok (Some s)
  | _ => Beyond
  end.

(** A parameter bound to a numeric column.  A number is read back as itself,
    a string of digits as that integer; the text of a boolean, an array or an
    object is not a numeric literal. *)
Definition numeric_param (v : jsval) : outcome (option Q) :=
  match v with
  | VUndefined | VNull => Ok None
  | VNum q => Ok (Some q)
  | VStr s =>
      match digits_in s with
      | Some n => Ok (Some (inject_Z (Z.of_N n)))
      | None => Beyond
      end
  | VBool _ | VArr _ | VObj _ => Err "invalid input syntax for type numeric"
  | VDate _ => Beyond
  end.

(** A NOT NULL column. *)
Definition not_null {A} (column : string) (v : option A) : outcome A :=
  match v with
  | Some a => Ok a
  | None => Err ("null value violates not-null constraint: " +:+ column)
  end.

Definition bigint_max : Z := 9223372036854775807.

(** A string of digits, or a minus sign followed by one. *)
Definition integer_in (s : string) : option Z :=
  match s with
  | String c rest =>
      if Ascii.eqb c "-"
      then option_map (fun n => - Z.of_N n) (digits_in rest)
      else option_map Z.of_N (digits_in s)
  | EmptyString => None
  end.

(** The parameter of LIMIT, a bigint that must not be negative. *)
Definition limit_param (v : jsval) : outcome nat :=
  match v with
  | VStr s =>
      match integer_in s with
      | Some z =>
          if Z.ltb z 0 then Err "LIMIT must not be negative"
          else if Z.leb z bigint_max then Ok (Z.to_nat z)
          else Err "value is out of range for type bigint"
      | None => Beyond
      end
  | VNum q =>
      match integer_of q with
      | Some z =>
          if Z.ltb z 0 then Err "LIMIT must not be negative"
          else if Z.leb z bigint_max then Ok (Z.to_nat z)
          else Err "value is out of range for type bigint"
      | None => Beyond
      end
  | _ => Beyond
  end.

(** [`${v}`] for the values whose text the model knows: a string, and a
    number that is a natural number. *)
Definition template_text (v : jsval) : option string :=
  match v with
  | VStr s => Some s
  | VNum q =>
      match integer_of q with
      | Some z =>
          if Z.leb 0 z then Some (NilEmpty.string_of_uint (N.to_uint (Z.to_N z)))
          else None
      | None => None
      end
  | _ => None
  end.

Definition microseconds_per_day : Z := 86400000000.
Definition interval_days_max : Z := 2147483647.

(** The earliest timestamp of the store, Julian day 0, counted like every
    timestamp here in microseconds from 1970-01-01 UTC (Julian day
    2440588). *)
Definition timestamp_min : Z := - 2440588 * microseconds_per_day.

(** The length in microseconds of [INTERVAL '<s> days'] where [s] is a string
    of digits; the day field of an interval is a 32-bit integer, and a
    larger count is rejected.  Any other text spliced into the statement is
    not interpreted. *)
Definition interval_of_days (s : string) : outcome Z :=
  match digits_in s with
  | Some n =>
      if Z.leb (Z.of_N n) interval_days_max
      then Ok (Z.of_N n * microseconds_per_day)
      else Err "interval field value out of range"
  | None => Beyond
  end.

(** *** Orderings used by ORDER BY *)

(** Text is compared character by character. *)
Definition pot_lt (a b : string) : Prop := String_as_OT.compare a b = Lt.
Definition pot_le (a b : string) : Prop := String_as_OT.compare a b <> Gt.

(** [ORDER BY timestamp DESC] *)
Definition newest_first (r1 r2 : Reading) : Prop :=
  timestamp r2 <= timestamp r1.

(** [ORDER BY pot_id, timestamp DESC] *)
Definition by_pot_newest_first (r1 r2 : Reading) : Prop :=
  pot_lt (pot_id r1) (pot_id r2)
  \/ (pot_id r1 = pot_id r2 /\ timestamp r2 <= timestamp r1).

#[global] Instance pot_lt_dec a b : Decision (pot_lt a b).
Proof. unfold pot_lt. solve_decision. Defined.
#[global] Instance pot_le_dec a b : Decision (pot_le a b).
Proof. unfold pot_le. solve_decision. Defined.
#[global] Instance newest_first_dec r1 r2 : Decision (newest_first r1 r2).
Proof. unfold newest_first. solve_decision. Defined.
#[global] Instance by_pot_newest_first_dec r1 r2 :
  Decision (by_pot_newest_first r1 r2).
Proof. unfold by_pot_newest_first. solve_decision. Defined.

(** *** Result rows *)

Definition text_or_null (o : option string) : jsval :=
  match o with Some s => VStr s | None => VNull end.

Definition date_or_null (o : option Z) : jsval :=
  match o with Some t => VDate t | None => VNull end.

(** The columns of [SELECT *] and [RETURNING *]. *)
Definition row_star (r : Reading) : jsval :=
  VObj [("id", num_of_Z (id r));
        ("pot_id", VStr (pot_id r));
        ("location", text_or_null (location r));
        ("raw_value", VNum (raw_value r));
        ("moisture_percent", VNum (moisture_percent r));
        ("timestamp", VDate (timestamp r))].

(** The select list of the latest-per-pot statement. *)
Definition row_latest (r : Reading) : jsval :=
  VObj [("pot_id", VStr (pot_id r));
        ("location", text_or_null (location r));
        ("raw_value", VNum (raw_value r));
        ("moisture_percent", VNum (moisture_percent r));
        ("timestamp", VDate (timestamp r))].

(** One group of [GROUP BY pot_id, location]. *)
Record PotSummary : Type := mkPotSummary {
  ps_pot_id : string;
  ps_location : option string;
  reading_count : nat;
  last_reading : option Z
}.

(** The decimal digits of a number. *)
Definition decimal_of_nat (n : nat) : string :=
  NilEmpty.string_of_uint (N.to_uint (N.of_nat n)).

(** The select list of the inventory statement.  [COUNT( * )] is a bigint,
    which the driver hands over as its decimal text. *)
Definition row_pot (g : PotSummary) : jsval :=
  VObj [("pot_id", VStr (ps_pot_id g));
        ("location", text_or_null (ps_location g));
        ("reading_count", VStr (decimal_of_nat (reading_count g)));
        ("last_reading", date_or_null (last_reading g))].

(** [ORDER BY pot_id] on the groups. *)
Definition by_pot (g1 g2 : PotSummary) : Prop :=
  pot_le (ps_pot_id g1) (ps_pot_id g2).

#[global] Instance by_pot_dec g1 g2 : Decision (by_pot g1 g2).
Proof. unfold by_pot. solve_decision. Defined.

(** What [pool.query] resolves to. *)
Record QueryResult : Type := mkResult {
  q_rows : list jsval;
  q_rowCount : nat
}.

(** What becomes of [pool.query]: it resolves with a result or rejects with
    a message, leaving the store [db'] either way; or the statement is
    outside what the model interprets. *)
Inductive Settled : Type :=
| Resolved (result : QueryResult) (db' : Store)
| Rejected (msg : string) (db' : Store)
| Unmodelled.

(** A statement that is rejected while its parameters are read has not run:
    it leaves the store [db] as it was. *)
Definition settle (db : Store) (run : outcome (QueryResult * Store)) : Settled :=
  match run with
  | Ok (result, db') => Resolved result db'
  | Err msg => Rejected msg db
  | Beyond => Unmodelled
  end.

(** *** The statements *)

(** [INSERT INTO readings (pot_id, location, raw_value, moisture_percent,
    timestamp) VALUES ($1, $2, $3, $4, NOW()) RETURNING *].  The parameters
    are read first; the row is then built, taking the next [id] of the
    sequence, before its NOT NULL columns are checked, so a row rejected by
    that check has used up an [id]. *)
Definition sql_insert_reading (now : Z) (values : list jsval) (db : Store)
  : Settled :=
  match values with
  | [v1; v2; v3; v4] =>
      let read_values :=
        p ← text_param v1;
        l ← text_param v2;
        a ← numeric_param v3;
        b ← numeric_param v4;
        Ok (p, l, a, b) in
      match read_values with
      | Ok (p, l, a, b) =>
          let checked :=
            p ← not_null "pot_id" p;
            a ← not_null "raw_value" a;
            b ← not_null "moisture_percent" b;
            Ok (mkReading (next_id db) p l a b now) in
          match checked with
          | Ok r =>
              Resolved (mkResult [row_star r] 1)
                       (mkStore (rows db ++ [r]) (next_id db + 1))
          | Err msg => Rejected msg (mkStore (rows db) (next_id db + 1))
          | Beyond => Unmodelled
          end
      | Err msg => Rejected msg db
      | Beyond => Unmodelled
      end
  | _ => Rejected "bind message supplies the wrong number of parameters" db
  end.

(** The rows chosen by [WHERE pot_id = p ORDER BY timestamp DESC LIMIT n]. *)
Definition select_history (p : string) (n : nat) (db : Store) : list Reading :=
  take n (merge_sort newest_first (filter (fun r => pot_id r = p) (rows db))).

(** [SELECT * FROM readings WHERE pot_id = $1 ORDER BY timestamp DESC
    LIMIT $2]; a NULL [$1] matches no row. *)
Definition sql_select_history (values : list jsval) (db : Store)
  : Settled :=
  match values with
  | [v1; v2] =>
      settle db
        (p ← text_param v1;
         n ← limit_param v2;
         let chosen :=
           match p with
           | Some p => select_history p n db
           | None => []
           end in
         Ok (mkResult (row_star <$> chosen) (length chosen), db))
  | _ => Rejected "bind message supplies the wrong number of parameters" db
  end.

(** DISTINCT ON (pot_id) over sorted rows: a row is kept when its [pot_id]
    differs from that of the row before it. *)
Fixpoint distinct_on_pot_id (prev : option string) (l : list Reading)
  : list Reading :=
  match l with
  | [] => []
  | r :: rest =>
      if decide (prev = Some (pot_id r))
      then distinct_on_pot_id prev rest
      else r :: distinct_on_pot_id (Some (pot_id r)) rest
  end.

(** The rows chosen by [SELECT DISTINCT ON (pot_id) ... ORDER BY pot_id,
    timestamp DESC]. *)
Definition select_latest (db : Store) : list Reading :=
  distinct_on_pot_id None (merge_sort by_pot_newest_first (rows db)).

(** [SELECT DISTINCT ON (pot_id) pot_id, location, raw_value,
    moisture_percent, timestamp FROM readings ORDER BY pot_id,
    timestamp DESC] *)
Definition sql_select_latest (db : Store) : Settled :=
  let chosen := select_latest db in
  Resolved (mkResult (row_latest <$> chosen) (length chosen)) db.

(** [MAX(timestamp)]; NULL over no rows. *)
Definition max_timestamp (l : list Reading) : option Z :=
  match l with
  | [] => None
  | r :: rest => Some (foldr (fun x m => Z.max (timestamp x) m) (timestamp r) rest)
  end.

Definition group_key (r : Reading) : string * option string :=
  (pot_id r, location r).

Definition group_of (k : string * option string) (l : list Reading)
  : list Reading :=
  filter (fun r => group_key r = k) l.

Definition summarise (l : list Reading) (k : string * option string)
  : PotSummary :=
  mkPotSummary k.1 k.2 (length (group_of k l)) (max_timestamp (group_of k l)).

(** The groups of [GROUP BY pot_id, location ORDER BY pot_id]; NULL locations
    form one group. *)
Definition select_pots (db : Store) : list PotSummary :=
  merge_sort by_pot
    (summarise (rows db) <$> remove_dups (group_key <$> rows db)).

(** [SELECT pot_id, location, COUNT( * ) as reading_count, MAX(timestamp) as
    last_reading FROM readings GROUP BY pot_id, location ORDER BY pot_id] *)
Definition sql_select_pots (db : Store) : Settled :=
  let groups := select_pots db in
  Resolved (mkResult (row_pot <$> groups) (length groups)) db.

(** [NOW() - INTERVAL '...'], in a session whose time zone is UTC, where a
    day has 86400 seconds.  A difference before the earliest timestamp is not
    interpreted. *)
Definition timestamp_minus (now span : Z) : outcome Z :=
  if Z.leb timestamp_min (now - span) then Ok (now - span) else Beyond.

(** [timestamp < NOW() - INTERVAL '... days'] *)
Definition older_than (threshold : Z) (r : Reading) : Prop :=
  timestamp r < threshold.

#[global] Instance older_than_dec t r : Decision (older_than t r).
Proof. unfold older_than. solve_decision. Defined.

(** [DELETE FROM readings WHERE timestamp < NOW() - INTERVAL '<days> days'
    RETURNING *], [days] being the text spliced into the statement. *)
Definition sql_delete_older (now : Z) (days : string) (db : Store)
  : Settled :=
  settle db
    (span ← interval_of_days days;
     threshold ← timestamp_minus now span;
     let gone := filter (older_than threshold) (rows db) in
     let kept := filter (fun r => ~ older_than threshold r) (rows db) in
     Ok (mkResult (row_star <$> gone) (length gone), mkStore kept (next_id db))).

(** ** The handlers *)

Record Response : Type := mkResponse {
  status : Z;
  body : jsval
}.

(** [v === undefined] *)
Definition is_undefined (v : jsval) : bool :=
  match v with VUndefined => true | _ => false end.

(** [rows[0]] *)
Definition first_row (result : QueryResult) : jsval :=
  match q_rows result with
  | row :: _ => row
  | [] => VUndefined
  end.

(** The [try]/[catch] around a statement: [respond] builds the response of a
    resolved query, and a rejection becomes a 500 with the handler's
    [summary] and the message. *)
Definition try_query (run : Settled)
    (respond : QueryResult -> Response) (summary : string)
  : option (Store * Response) :=
  match run with
  | Resolved result db' => Some (db', respond result)
  | Rejected msg db' =>
      Some (db', mkResponse 500
                   (VObj [("error", VStr summary); ("details", VStr msg)]))
  | Unmodelled => None
  end.

(** [app.post('/api/moisture', ...)] *)
Definition post_moisture (now : Z) (req_body : gmap string jsval) (db : Store)
  : option (Store * Response) :=
  let pot_id := prop req_body "pot_id" in
  let location := prop req_body "location" in
  let raw_value := prop req_body "raw_value" in
  let moisture_percent := prop req_body "moisture_percent" in
  if negb (truthy pot_id) || is_undefined raw_value
     || is_undefined moisture_percent
  then Some (db, mkResponse 400
    (VObj [("error",
            VStr "Missing required fields: pot_id, raw_value, moisture_percent")]))
  else
    let values := [pot_id; js_or location VNull; raw_value; moisture_percent] in
    try_query (sql_insert_reading now values db)
      (fun result => mkResponse 201
         (VObj [("success", VBool true); ("data", first_row result)]))
      "Failed to save reading".

(** [app.get('/api/moisture/:pot_id', ...)] *)
Definition get_moisture (param_pot_id : string) (req_query : gmap string jsval)
    (db : Store) : option (Store * Response) :=
  let limit := js_or (prop req_query "limit") (VNum 100) in
  try_query (sql_select_history [VStr param_pot_id; limit] db)
    (fun result => mkResponse 200
       (VObj [("success", VBool true);
              ("pot_id", VStr param_pot_id);
              ("count", num_of_nat (length (q_rows result)));
              ("data", VArr (q_rows result))]))
    "Failed to fetch readings".

(** [app.get('/api/pots/latest', ...)] *)
Definition get_pots_latest (db : Store) : option (Store * Response) :=
  try_query (sql_select_latest db)
    (fun result => mkResponse 200
       (VObj [("success", VBool true);
              ("count", num_of_nat (length (q_rows result)));
              ("data", VArr (q_rows result))]))
    "Failed to fetch latest readings".

(** [app.get('/api/pots', ...)] *)
Definition get_pots (db : Store) : option (Store * Response) :=
  try_query (sql_select_pots db)
    (fun result => mkResponse 200
       (VObj [("success", VBool true);
              ("count", num_of_nat (length (q_rows result)));
              ("data", VArr (q_rows result))]))
    "Failed to fetch pots".

(** [app.delete('/api/readings/cleanup', ...)] *)
Definition delete_cleanup (now : Z) (req_query : gmap string jsval) (db : Store)
  : option (Store * Response) :=
  let daysToKeep := js_or (prop req_query "days") (VNum 30) in
  match template_text daysToKeep with
  | Some days =>
      try_query (sql_delete_older now days db)
        (fun result => mkResponse 200
           (VObj [("success", VBool true);
                  ("deleted", num_of_nat (q_rowCount result));
                  ("message",
                   VStr ("Deleted readings older than " +:+ days +:+ " days"))]))
        "Failed to cleanup readings"
  | None => None
  end.

(** What [location || null] stores when [location] is falsy or a string: a
    non-empty string as itself, anything falsy as NULL. *)
Definition stored_location (location : jsval) : option string :=
  match location with
  | VStr s => if String.eqb s "" then None else Some s
  | _ => None
  end.

(** The body of the 400 response of [post_moisture]. *)
Definition missing_fields_body : jsval :=
  VObj [("error",
         VStr "Missing required fields: pot_id, raw_value, moisture_percent")].

(** The [limit] of a history request: 100 when the query has no [limit],
    otherwise the number that the digits of [limit] spell, a bigint. *)
Inductive limit_is (req_query : gmap string jsval) : nat -> Prop :=
| limit_default :
    req_query !! "limit" = None -> limit_is req_query 100
| limit_given (s : string) (k : N) :
    req_query !! "limit" = Some (VStr s) ->
    digits_in s = Some k ->
    Z.of_N k <= bigint_max ->
    limit_is req_query (N.to_nat k).

(** The body of a successful history response. *)
Definition history_body (p : string) (chosen : list Reading) : jsval :=
  VObj [("success", VBool true);
        ("pot_id", VStr p);
        ("count", num_of_nat (length chosen));
        ("data", VArr (row_star <$> chosen))].

(** The body of a successful latest-per-pot response. *)
Definition latest_body (chosen : list Reading) : jsval :=
  VObj [("success", VBool true);
        ("count", num_of_nat (length chosen));
        ("data", VArr (row_latest <$> chosen))].

(** [prev], the [pot_id] of the row before [l] in a sorted scan, is not above
    any row of [l]. *)
Definition prev_below (prev : option string) (l : list Reading) : Prop :=
  forall q, prev = Some q -> forall r, r ∈ l -> pot_le q (pot_id r).

(** The pair a group stands for. *)
Definition pot_key (g : PotSummary) : string * option string :=
  (ps_pot_id g, ps_location g).

(** The body of a successful inventory response. *)
Definition pots_body (groups : list PotSummary) : jsval :=
  VObj [("success", VBool true);
        ("count", num_of_nat (length groups));
        ("data", VArr (row_pot <$> groups))].

(** The [days] of a cleanup request, as text and as a number: 30 when the
    query has no [days], otherwise the number that the digits of [days]
    spell, a 32-bit day count. *)
Inductive days_is (req_query : gmap string jsval) : string -> N -> Prop :=
| days_default :
    req_query !! "days" = None -> days_is req_query "30" 30
| days_given (s : string) (d : N) :
    req_query !! "days" = Some (VStr s) ->
    digits_in s = Some d ->
    Z.of_N d <= interval_days_max ->
    days_is req_query s d.

(** ** Start-up configuration and the last-resort error handler *)

(** [process.env.K]: a string when the variable is set, undefined
    otherwise. *)
Definition env_get (env : gmap string string) (k : string) : jsval :=
  match env !! k with
  | Some s => VStr s
  | None => VUndefined
  end.

(** [const PORT = process.env.PORT || 3000] *)
Definition PORT (env : gmap string string) : jsval :=
  js_or (env_get env "PORT") (VNum 3000).

(** The options of [new Pool({...})]. *)
Definition pool_options (env : gmap string string) : jsval :=
  VObj [("host", js_or (env_get env "DB_HOST") (VStr "localhost"));
        ("port", js_or (env_get env "DB_PORT") (VNum 5432));
        ("database", js_or (env_get env "DB_NAME") (VStr "waterboy"));
        ("user", js_or (env_get env "DB_USER") (VStr "postgres"));
        ("password", js_or (env_get env "DB_PASSWORD") (VStr "postgres"))].

(** [app.use((err, req, res, next) => ...)], for an error whose message is
    [message]. *)
Definition error_middleware (message : string) : Response :=
  mkResponse 500
    (VObj [("error", VStr "Something went wrong!"); ("details", VStr message)]).

(** A value that is a string. *)
Definition is_string (v : jsval) : Prop :=
  exists s, v = VStr s.

(** The [id]s of the table are pairwise distinct and below the next value of
    the sequence. *)
Definition ids_fresh (db : Store) : Prop :=
  NoDup (id <$> rows db) /\ forall r, r ∈ rows db -> id r < next_id db.

(** [value] is what the variable [var] of the environment sets, [fallback]
    standing in when the variable is unset or empty. *)
Definition setting_is (env : gmap string string) (var : string)
    (fallback value : jsval) : Prop :=
  (forall s, env !! var = Some s -> s <> "" -> value = VStr s)
  /\ (env !! var = None \/ env !! var = Some "" -> value = fallback).

(** ** What a result row shows *)

(** [row] has the six columns of the reading [r]. *)
Definition shows_reading (row : jsval) (r : Reading) : Prop :=
  field "id" row = num_of_Z (id r)
  /\ field "pot_id" row = VStr (pot_id r)
  /\ field "location" row = text_or_null (location r)
  /\ field "raw_value" row = VNum (raw_value r)
  /\ field "moisture_percent" row = VNum (moisture_percent r)
  /\ field "timestamp" row = VDate (timestamp r).

(** [row] has the five columns that the latest snapshot selects from the
    reading [r]. *)
Definition shows_latest (row : jsval) (r : Reading) : Prop :=
  field "pot_id" row = VStr (pot_id r)
  /\ field "location" row = text_or_null (location r)
  /\ field "raw_value" row = VNum (raw_value r)
  /\ field "moisture_percent" row = VNum (moisture_percent r)
  /\ field "timestamp" row = VDate (timestamp r).



(** * Properties *)

(** ** The orderings are total preorders *)

Section Orderings.

Lemma pot_lt_trans a b c : pot_lt a b -> pot_lt b c -> pot_lt a c.
Proof. apply String_as_OT.lt_strorder. Qed.

Lemma pot_lt_irrefl a : ~ pot_lt a a.
Proof. apply String_as_OT.lt_strorder. Qed.

Lemma pot_compare_cases a b : pot_lt a b \/ a = b \/ pot_lt b a.
Proof.
  destruct (String_as_OT.compare_spec a b) as [H|H|H]; auto.
Qed.

Lemma pot_le_lt_eq a b : pot_le a b <-> pot_lt a b \/ a = b.
Proof.
  unfold pot_le, pot_lt.
  destruct (String_as_OT.compare_spec a b) as [H|H|H]; split; intros G;
    try (left; reflexivity); try (right; assumption); try congruence.
  exfalso. destruct G as [G|G]; try congruence.
  subst b. exact (pot_lt_irrefl a H).
Qed.

Lemma pot_lt_le a b : pot_lt a b -> pot_le a b.
Proof. intros H. apply pot_le_lt_eq. by left. Qed.

Lemma pot_lt_neq a b : pot_lt a b -> a <> b.
Proof. intros H ->. exact (pot_lt_irrefl b H). Qed.

#[global] Instance pot_le_refl : Reflexive pot_le.
Proof. intros a. apply pot_le_lt_eq. by right. Qed.

#[global] Instance pot_le_trans : Transitive pot_le.
Proof.
  intros a b c Hab Hbc. apply pot_le_lt_eq.
  apply pot_le_lt_eq in Hab as [Hab | ->];
    apply pot_le_lt_eq in Hbc as [Hbc | ->]; auto.
  left. by eapply pot_lt_trans.
Qed.

#[global] Instance pot_le_total : Total pot_le.
Proof.
  intros a b. destruct (pot_compare_cases a b) as [H|[->|H]].
  - left. by apply pot_lt_le.
  - by left.
  - right. by apply pot_lt_le.
Qed.

Lemma pot_le_lt_trans a b c : pot_le a b -> pot_lt b c -> pot_lt a c.
Proof.
  intros Hab Hbc. apply pot_le_lt_eq in Hab as [Hab | ->]; auto.
  by eapply pot_lt_trans.
Qed.

#[global] Instance newest_first_trans : Transitive newest_first.
Proof. unfold newest_first. intros a b c ? ?. lia. Qed.

#[global] Instance newest_first_total : Total newest_first.
Proof. unfold newest_first. intros a b. lia. Qed.

#[global] Instance by_pot_newest_first_trans :
  Transitive by_pot_newest_first.
Proof.
  unfold by_pot_newest_first.
  intros a b c [Hab | [Eab Tab]] [Hbc | [Ebc Tbc]].
  - left. by eapply pot_lt_trans.
  - left. by rewrite <- Ebc.
  - left. by rewrite Eab.
  - right. split; [congruence | lia].
Qed.

#[global] Instance by_pot_newest_first_total : Total by_pot_newest_first.
Proof.
  unfold by_pot_newest_first. intros a b.
  destruct (pot_compare_cases (pot_id a) (pot_id b)) as [H|[H|H]]; auto.
  destruct (Z.le_ge_cases (timestamp a) (timestamp b)); auto.
Qed.

#[global] Instance by_pot_trans : Transitive by_pot.
Proof. unfold by_pot. intros a b c. apply pot_le_trans. Qed.

#[global] Instance by_pot_total : Total by_pot.
Proof. unfold by_pot. intros a b. apply pot_le_total. Qed.

End Orderings.

(** ** The rows of a result *)

Lemma digits_in_decimal_of_nat (n : nat) :
  digits_in (decimal_of_nat n) = Some (N.of_nat n).
Proof.
  unfold digits_in, decimal_of_nat.
  assert (N.to_uint (N.of_nat n) <> Decimal.Nil) as Hnil.
  { destruct (N.of_nat n); [discriminate|].
    apply DecimalPos.Unsigned.to_uint_nonnil. }
  destruct (String.eqb_spec (NilEmpty.string_of_uint (N.to_uint (N.of_nat n))) "")
    as [Hempty | _].
  - exfalso. by destruct (N.to_uint (N.of_nat n)).
  - rewrite NilEmpty.usu. simpl. by rewrite DecimalN.Unsigned.of_to.
Qed.

Lemma row_star_shows (l : list Reading) :
  Forall2 shows_reading (row_star <$> l) l.
Proof. induction l; constructor; [by repeat split | done]. Qed.

Lemma row_latest_shows (l : list Reading) :
  Forall2 shows_latest (row_latest <$> l) l.
Proof. induction l; constructor; [by repeat split | done]. Qed.


(** ** Ingest: POST /api/moisture *)

Section Ingest.

Variables (now : Z) (req_body : gmap string jsval) (db : Store).

Lemma truthy_nonempty (p : string) : p <> "" -> truthy (VStr p) = true.
Proof.
  intros Hp. simpl. destruct (String.eqb_spec p ""); [contradiction | done].
Qed.

Lemma location_param (location : jsval) :
  truthy location = false \/ (exists s, location = VStr s) ->
  text_param (js_or location VNull) = Ok (stored_location location).
Proof.
  unfold js_or. intros [Hfalsy | [s ->]].
  - rewrite Hfalsy. destruct location; try done.
    simpl in *. by destruct (String.eqb s "").
  - simpl. by destruct (String.eqb s "").
Qed.

(** A request with a non-empty string [pot_id] and two numbers is stored:
    the statement resolves, and the handler answers 201 with the new row. *)
Lemma post_moisture_stores (p : string) (a b : Q) :
  req_body !! "pot_id" = Some (VStr p) -> p <> "" ->
  (let location := prop req_body "location" in
   truthy location = false \/ exists s, location = VStr s) ->
  req_body !! "raw_value" = Some (VNum a) ->
  req_body !! "moisture_percent" = Some (VNum b) ->
  let r := mkReading (next_id db) p
             (stored_location (prop req_body "location")) a b now in
  post_moisture now req_body db
  = Some (mkStore (rows db ++ [r]) (next_id db + 1),
          mkResponse 201 (VObj [("success", VBool true); ("data", row_star r)])).
Proof.
  intros Hp Hne Hloc Ha Hb r. unfold post_moisture.
  pose proof (location_param _ Hloc) as Hl. subst r.
  unfold prop in *. rewrite Hp, Ha, Hb. cbn [is_undefined orb].
  rewrite (truthy_nonempty p Hne). cbn [negb orb].
  unfold sql_insert_reading. rewrite Hl. reflexivity.
Qed.

(** A request without one of the three required properties is answered
    400, and no statement is sent. *)
Lemma post_moisture_missing :
  req_body !! "pot_id" = None \/ req_body !! "raw_value" = None
  \/ req_body !! "moisture_percent" = None ->
  post_moisture now req_body db = Some (db, mkResponse 400 missing_fields_body).
Proof.
  intros H. unfold post_moisture, prop.
  destruct H as [H|[H|H]]; rewrite H; cbn [truthy negb orb is_undefined].
  - reflexivity.
  - by rewrite orb_true_r.
  - by rewrite orb_true_r.
Qed.

End Ingest.

(** C1 (as amended).  A submit request whose [pot_id] is a non-empty string,
    whose [raw_value] and [moisture_percent] are numbers and whose [location]
    is falsy (absent, null, empty) or a string appends exactly one Reading to
    the store and is answered 201; [data] is the stored row in full, whose
    [id] is the one the store assigned and whose [timestamp] is the store
    clock. *)
Theorem ingest_created (now : Z) (req_body : gmap string jsval) (db : Store)
    (p : string) (a b : Q) :
  req_body !! "pot_id" = Some (VStr p) -> p <> "" ->
  (let location := prop req_body "location" in
   truthy location = false \/ exists s, location = VStr s) ->
  req_body !! "raw_value" = Some (VNum a) ->
  req_body !! "moisture_percent" = Some (VNum b) ->
  exists (r : Reading) (db' : Store) (resp : Response),
    post_moisture now req_body db = Some (db', resp)
    /\ rows db' = rows db ++ [r]
    /\ status resp = 201
    /\ field "success" (body resp) = VBool true
    /\ field "data" (body resp) = row_star r
    /\ r = mkReading (next_id db) p
              (stored_location (prop req_body "location")) a b now
    /\ field "id" (row_star r) = num_of_Z (next_id db)
    /\ field "timestamp" (row_star r) = VDate now.
Proof.
  intros Hp Hne Hloc Ha Hb.
  eexists _, _, _. split.
  - by apply (post_moisture_stores now req_body db p a b).
  - repeat split; reflexivity.
Qed.

Lemma ingest_created_witness :
  let req_body : gmap string jsval :=
    {[ "pot_id" := VStr "A"; "raw_value" := VNum 512;
       "moisture_percent" := VNum (91 # 2) ]} in
  let db := mkStore [] 1 in
  exists (r : Reading) (db' : Store) (resp : Response),
    post_moisture 99 req_body db = Some (db', resp)
    /\ rows db' = rows db ++ [r]
    /\ status resp = 201
    /\ field "success" (body resp) = VBool true
    /\ field "data" (body resp) = row_star r
    /\ r = mkReading (next_id db) "A"
              (stored_location (prop req_body "location")) 512 (91 # 2) 99
    /\ field "id" (row_star r) = num_of_Z (next_id db)
    /\ field "timestamp" (row_star r) = VDate 99.
Proof.
  intros req_body db.
  apply (ingest_created 99 req_body db "A" 512 (91 # 2));
    [reflexivity | discriminate | left; reflexivity | reflexivity
    | reflexivity].
Defined.

(** C1 (as stated) fails: the body below contains [pot_id], [raw_value] and
    [moisture_percent], yet [!pot_id] holds of the empty string, the request
    is answered 400 and nothing is stored. *)
Lemma ingest_empty_pot_id_rejected :
  let req_body : gmap string jsval :=
    {[ "pot_id" := VStr ""; "raw_value" := VNum 1;
       "moisture_percent" := VNum 1 ]} in
  let db := mkStore [] 1 in
  is_Some (req_body !! "pot_id")
  /\ is_Some (req_body !! "raw_value")
  /\ is_Some (req_body !! "moisture_percent")
  /\ post_moisture 99 req_body db
     = Some (db, mkResponse 400 missing_fields_body).
Proof.
  intros req_body db. repeat split; try (eexists; reflexivity).
Qed.

(** A null [raw_value] is not [undefined]: the request passes the check of
    the handler, the NOT NULL column rejects the row, and the answer is 500;
    no row is stored, and the [id] the row had taken is lost. *)
Lemma ingest_null_raw_value_fails :
  let req_body : gmap string jsval :=
    {[ "pot_id" := VStr "A"; "raw_value" := VNull;
       "moisture_percent" := VNum 1 ]} in
  let db := mkStore [] 1 in
  exists resp : Response,
    post_moisture 99 req_body db = Some (mkStore [] 2, resp)
    /\ status resp = 500
    /\ field "error" (body resp) = VStr "Failed to save reading".
Proof.
  intros req_body db. eexists. split; [vm_compute; reflexivity|]. by split.
Qed.

(** C2 (as stated) fails: in the body below every required property is
    present and both readings are 0, yet [!pot_id] holds of the empty
    string and the request is rejected as missing fields, with nothing
    stored. *)
Lemma ingest_zero_with_empty_pot_id_rejected :
  let req_body : gmap string jsval :=
    {[ "pot_id" := VStr ""; "raw_value" := VNum 0;
       "moisture_percent" := VNum 0 ]} in
  let db := mkStore [] 1 in
  req_body !! "pot_id" = Some (VStr "")
  /\ req_body !! "raw_value" = Some (VNum 0)
  /\ req_body !! "moisture_percent" = Some (VNum 0)
  /\ post_moisture 99 req_body db
     = Some (db, mkResponse 400 missing_fields_body)
  /\ field "error" (missing_fields_body)
     = VStr "Missing required fields: pot_id, raw_value, moisture_percent".
Proof.
  intros req_body db. by repeat split.
Qed.

(** C2 (as amended).  With a non-empty string [pot_id] and two numbers as
    readings, a reading whose [raw_value] or [moisture_percent] is the
    number 0 is not taken for a missing field: it is answered 201 and
    stored, zero included. *)
Theorem ingest_zero_accepted (now : Z) (req_body : gmap string jsval)
    (db : Store) (p : string) (a b : Q) :
  req_body !! "pot_id" = Some (VStr p) -> p <> "" ->
  (let location := prop req_body "location" in
   truthy location = false \/ exists s, location = VStr s) ->
  req_body !! "raw_value" = Some (VNum a) ->
  req_body !! "moisture_percent" = Some (VNum b) ->
  a = 0%Q \/ b = 0%Q ->
  exists (r : Reading) (db' : Store) (resp : Response),
    post_moisture now req_body db = Some (db', resp)
    /\ status resp = 201
    /\ body resp <> missing_fields_body
    /\ rows db' = rows db ++ [r]
    /\ pot_id r = p /\ raw_value r = a /\ moisture_percent r = b.
Proof.
  intros Hp Hne Hloc Ha Hb _.
  eexists _, _, _. split.
  - by apply (post_moisture_stores now req_body db p a b).
  - repeat split. discriminate.
Qed.

Lemma ingest_zero_accepted_witness :
  let req_body : gmap string jsval :=
    {[ "pot_id" := VStr "A"; "location" := VStr "porch";
       "raw_value" := VNum 0; "moisture_percent" := VNum 0 ]} in
  let db := mkStore [] 1 in
  exists (r : Reading) (db' : Store) (resp : Response),
    post_moisture 99 req_body db = Some (db', resp)
    /\ status resp = 201
    /\ body resp <> missing_fields_body
    /\ rows db' = rows db ++ [r]
    /\ pot_id r = "A" /\ raw_value r = 0%Q /\ moisture_percent r = 0%Q.
Proof.
  intros req_body db.
  apply (ingest_zero_accepted 99 req_body db "A" 0 0);
    [reflexivity | discriminate | right; by exists "porch" | reflexivity
    | reflexivity | left; reflexivity].
Defined.

(** C3 (as amended).  A submit request that lacks [pot_id], [raw_value] or
    [moisture_percent] is answered 400 with a JSON body that carries an
    [error] string and no [details], and the store is unchanged. *)
Theorem ingest_missing_rejected (now : Z) (req_body : gmap string jsval)
    (db : Store) :
  req_body !! "pot_id" = None \/ req_body !! "raw_value" = None
  \/ req_body !! "moisture_percent" = None ->
  exists resp : Response,
    post_moisture now req_body db = Some (db, resp)
    /\ status resp = 400
    /\ field "error" (body resp)
       = VStr "Missing required fields: pot_id, raw_value, moisture_percent"
    /\ has_field "details" (body resp) = false.
Proof.
  intros H. eexists. split.
  - by apply post_moisture_missing.
  - repeat split.
Qed.

Lemma ingest_missing_rejected_witness :
  let req_body : gmap string jsval :=
    {[ "pot_id" := VStr "A"; "moisture_percent" := VNum 40 ]} in
  let db := mkStore [mkReading 1 "A" None 500 45 10] 2 in
  exists resp : Response,
    post_moisture 99 req_body db = Some (db, resp)
    /\ status resp = 400
    /\ field "error" (body resp)
       = VStr "Missing required fields: pot_id, raw_value, moisture_percent"
    /\ has_field "details" (body resp) = false.
Proof.
  intros req_body db.
  apply (ingest_missing_rejected 99 req_body db).
  right; left; reflexivity.
Defined.

(** C3 (as stated) fails: a request without [pot_id] is answered 400 and
    stores nothing, but the body has no [details] property. *)
Lemma ingest_missing_has_no_details :
  let req_body : gmap string jsval :=
    {[ "raw_value" := VNum 512; "moisture_percent" := VNum 40 ]} in
  let db := mkStore [] 1 in
  req_body !! "pot_id" = None
  /\ exists resp : Response,
       post_moisture 99 req_body db = Some (db, resp)
       /\ status resp = 400
       /\ field "details" (body resp) = VUndefined.
Proof.
  intros req_body db. split; [reflexivity|].
  eexists. repeat split.
Qed.

(** ** History: GET /api/moisture/:pot_id *)

Section History.

Variables (p : string) (req_query : gmap string jsval) (db : Store).

Lemma digits_in_truthy (s : string) (k : N) :
  digits_in s = Some k -> truthy (VStr s) = true.
Proof.
  unfold digits_in. simpl. by destruct (String.eqb s "").
Qed.

Lemma digits_in_integer (s : string) (k : N) :
  digits_in s = Some k -> integer_in s = Some (Z.of_N k).
Proof.
  destruct s as [|c rest]; [done|]. intros Hs. unfold integer_in.
  destruct (Ascii.eqb_spec c "-") as [-> | _]; [|by rewrite Hs].
  exfalso. unfold digits_in in Hs. simpl in Hs.
  by destruct (NilEmpty.uint_of_string rest).
Qed.

Lemma limit_is_param (n : nat) :
  limit_is req_query n ->
  limit_param (js_or (prop req_query "limit") (VNum 100)) = Ok n.
Proof.
  intros [Hq | s k Hq Hs Hk]; unfold prop; rewrite Hq.
  - reflexivity.
  - unfold js_or. rewrite (digits_in_truthy s k Hs). simpl.
    rewrite (digits_in_integer s k Hs).
    destruct (Z.ltb_spec (Z.of_N k) 0); [lia|].
    destruct (Z.leb_spec (Z.of_N k) bigint_max); [|lia].
    by rewrite <- Z_N_nat, N2Z.id.
Qed.

Lemma get_moisture_ok (n : nat) :
  limit_is req_query n ->
  get_moisture p req_query db
  = Some (db, mkResponse 200 (history_body p (select_history p n db))).
Proof.
  intros Hn. unfold get_moisture, sql_select_history.
  rewrite (limit_is_param n Hn). simpl.
  unfold history_body. by rewrite !length_fmap.
Qed.

Let matching : list Reading := filter (fun r => pot_id r = p) (rows db).

Lemma select_history_split (n : nat) :
  let sorted := merge_sort newest_first matching in
  select_history p n db ++ drop n sorted ≡ₚ matching.
Proof.
  intros sorted. unfold select_history. fold matching. fold sorted.
  rewrite take_drop. apply merge_sort_Permutation.
Qed.

Lemma select_history_sorted (n : nat) :
  StronglySorted newest_first (select_history p n db).
Proof.
  unfold select_history. fold matching.
  pose proof (StronglySorted_merge_sort newest_first matching) as Hs.
  rewrite <- (take_drop n (merge_sort newest_first matching)) in Hs.
  by apply StronglySorted_app_1_l in Hs.
Qed.

Lemma select_history_newest (n : nat) (x y : Reading) :
  x ∈ select_history p n db ->
  y ∈ drop n (merge_sort newest_first matching) ->
  timestamp y <= timestamp x.
Proof.
  unfold select_history. fold matching. intros Hx Hy.
  pose proof (StronglySorted_merge_sort newest_first matching) as Hs.
  rewrite <- (take_drop n (merge_sort newest_first matching)) in Hs.
  exact (StronglySorted_app_1_elem_of _ _ _ _ _ Hs Hx Hy).
Qed.

Lemma select_history_length (n : nat) :
  length (select_history p n db) = (n `min` length matching)%nat.
Proof.
  unfold select_history. fold matching. rewrite length_take.
  by rewrite (Permutation_length (merge_sort_Permutation newest_first matching)).
Qed.

Lemma select_history_unknown (n : nat) :
  (forall r, r ∈ rows db -> pot_id r <> p) -> select_history p n db = [].
Proof.
  intros Hno. unfold select_history.
  assert (filter (fun r => pot_id r = p) (rows db) = []) as ->.
  { induction (rows db) as [|r l IH]; [done|].
    rewrite filter_cons. destruct (decide (pot_id r = p)) as [E|_].
    - exfalso. apply (Hno r); [left | done].
    - apply IH. intros r' Hr'. apply Hno. by right. }
  by destruct n.
Qed.

End History.

(** C4 (as amended).  For every [pot_id] and every limit that is absent
    (then 100) or a string of digits spelling a bigint, the history request
    is answered 200 with the rows of readings of that pot only, newest
    first: each row of [data] shows the six columns of its reading, the
    readings chosen together with the ones cut off are exactly the readings
    of the pot, no reading cut off is newer than a chosen one, and the
    number of rows is the limit or, if fewer, the number of readings of the
    pot. *)
Theorem history_newest_first (p : string) (req_query : gmap string jsval)
    (db : Store) (n : nat) :
  limit_is req_query n ->
  exists (data : list jsval) (chosen rest : list Reading),
    get_moisture p req_query db
    = Some (db, mkResponse 200
                  (VObj [("success", VBool true);
                         ("pot_id", VStr p);
                         ("count", num_of_nat (length data));
                         ("data", VArr data)]))
    /\ Forall2 shows_reading data chosen
    /\ chosen ++ rest ≡ₚ filter (fun r => pot_id r = p) (rows db)
    /\ StronglySorted (fun r1 r2 => timestamp r2 <= timestamp r1) chosen
    /\ (forall x y, x ∈ chosen -> y ∈ rest -> timestamp y <= timestamp x)
    /\ length chosen
       = (n `min` length (filter (fun r => pot_id r = p) (rows db)))%nat
    /\ (req_query !! "limit" = None -> n = 100%nat).
Proof.
  intros Hn.
  exists (row_star <$> select_history p n db), (select_history p n db),
    (drop n (merge_sort newest_first (filter (fun r => pot_id r = p) (rows db)))).
  split.
  { rewrite (get_moisture_ok p req_query db n Hn).
    unfold history_body. by rewrite length_fmap. }
  split; [apply row_star_shows|].
  split; [apply select_history_split|].
  split; [apply select_history_sorted|].
  split; [apply select_history_newest|].
  split; [apply select_history_length|].
  intros Hq. destruct Hn as [_ | s k Hs _ _]; [done | congruence].
Qed.

Lemma history_newest_first_witness :
  let req_query : gmap string jsval := {[ "limit" := VStr "2" ]} in
  let db := mkStore [mkReading 1 "X" None 500 45 10;
                     mkReading 2 "Y" None 300 20 15;
                     mkReading 3 "X" None 510 46 20;
                     mkReading 4 "X" None 520 47 30] 5 in
  limit_is req_query 2
  /\ exists (data : list jsval) (chosen rest : list Reading),
       get_moisture "X" req_query db
       = Some (db, mkResponse 200
                     (VObj [("success", VBool true);
                            ("pot_id", VStr "X");
                            ("count", num_of_nat (length data));
                            ("data", VArr data)]))
       /\ Forall2 shows_reading data chosen
       /\ chosen ++ rest ≡ₚ filter (fun r => pot_id r = "X") (rows db)
       /\ StronglySorted (fun r1 r2 => timestamp r2 <= timestamp r1) chosen
       /\ (forall x y, x ∈ chosen -> y ∈ rest -> timestamp y <= timestamp x)
       /\ length chosen
          = (2 `min` length (filter (fun r => pot_id r = "X") (rows db)))%nat
       /\ (req_query !! "limit" = None -> 2%nat = 100%nat).
Proof.
  intros req_query db.
  assert (limit_is req_query 2) as Hn.
  { apply (limit_given req_query "2" 2);
      [reflexivity | reflexivity | unfold bigint_max; lia]. }
  split; [exact Hn|].
  exact (history_newest_first "X" req_query db 2 Hn).
Defined.

(** C4 (as stated) fails: the handler passes [limit] to the store as it came,
    and the store rejects a negative one; the request below is answered 500,
    without [data], although the pot has a reading. *)
Lemma history_negative_limit_fails :
  let req_query : gmap string jsval := {[ "limit" := VStr "-1" ]} in
  let db := mkStore [mkReading 1 "X" None 500 45 10] 2 in
  exists resp : Response,
    get_moisture "X" req_query db = Some (db, resp)
    /\ status resp = 500
    /\ field "error" (body resp) = VStr "Failed to fetch readings"
    /\ field "data" (body resp) = VUndefined.
Proof.
  intros req_query db. eexists. split; [vm_compute; reflexivity|].
  by repeat split.
Qed.

(** C9.  For a [pot_id] that no reading of the store has, the history
    request is answered 200 with an empty [data] list and [count] 0, and the
    store is as it was. *)
Theorem history_unknown_pot (p : string) (req_query : gmap string jsval)
    (db : Store) (n : nat) :
  limit_is req_query n ->
  (forall r, r ∈ rows db -> pot_id r <> p) ->
  get_moisture p req_query db
  = Some (db, mkResponse 200
                (VObj [("success", VBool true);
                       ("pot_id", VStr p);
                       ("count", VNum 0);
                       ("data", VArr [])])).
Proof.
  intros Hn Hno. rewrite (get_moisture_ok p req_query db n Hn).
  by rewrite (select_history_unknown p db n Hno).
Qed.

Lemma history_unknown_pot_witness :
  let req_query : gmap string jsval := ∅ in
  let db := mkStore [mkReading 1 "A" None 500 45 10] 2 in
  limit_is req_query 100
  /\ (forall r, r ∈ rows db -> pot_id r <> "unknown-pot")
  /\ get_moisture "unknown-pot" req_query db
     = Some (db, mkResponse 200
                   (VObj [("success", VBool true);
                          ("pot_id", VStr "unknown-pot");
                          ("count", VNum 0);
                          ("data", VArr [])])).
Proof.
  intros req_query db.
  assert (limit_is req_query 100) as Hn.
  { apply limit_default. reflexivity. }
  assert (forall r, r ∈ rows db -> pot_id r <> "unknown-pot") as Hno.
  { intros r Hr. apply list_elem_of_In in Hr. simpl in Hr.
    destruct Hr as [<- | []]. simpl. discriminate. }
  split; [exact Hn|]. split; [exact Hno|].
  exact (history_unknown_pot "unknown-pot" req_query db 100 Hn Hno).
Defined.

(** ** Latest snapshot: GET /api/pots/latest *)

Section Latest.

Lemma sorted_head_below (r : Reading) (rest : list Reading) :
  Forall (by_pot_newest_first r) rest ->
  prev_below (Some (pot_id r)) rest.
Proof.
  intros Hall q [= <-] y Hy.
  rewrite Forall_forall in Hall. apply pot_le_lt_eq.
  destruct (Hall y Hy) as [Hlt | [Heq _]]; auto.
Qed.

Lemma sorted_head_newest (r y : Reading) (rest : list Reading) :
  Forall (by_pot_newest_first r) rest ->
  y ∈ rest -> pot_id y = pot_id r -> timestamp y <= timestamp r.
Proof.
  intros Hall Hy Heq. rewrite Forall_forall in Hall.
  destruct (Hall y Hy) as [Hlt | [_ Hts]]; [|done].
  rewrite Heq in Hlt. by apply pot_lt_irrefl in Hlt.
Qed.

Lemma distinct_on_pot_id_spec (l : list Reading) :
  StronglySorted by_pot_newest_first l ->
  forall prev, prev_below prev l ->
    (forall x, x ∈ distinct_on_pot_id prev l ->
       x ∈ l
       /\ (forall q, prev = Some q -> pot_lt q (pot_id x))
       /\ (forall y, y ∈ l -> pot_id y = pot_id x ->
             timestamp y <= timestamp x))
    /\ (forall y, y ∈ l -> prev <> Some (pot_id y) ->
         exists x, x ∈ distinct_on_pot_id prev l /\ pot_id x = pot_id y)
    /\ StronglySorted pot_lt (pot_id <$> distinct_on_pot_id prev l).
Proof.
  induction 1 as [|r rest Hsorted IH Hall]; intros prev Hprev.
  { simpl. split; [|split].
    - intros x Hx. by apply elem_of_nil in Hx.
    - intros y Hy. by apply elem_of_nil in Hy.
    - constructor. }
  assert (prev_below prev rest) as Hprev'.
  { intros q Hq y Hy. apply (Hprev q Hq). by right. }
  pose proof (sorted_head_below r rest Hall) as Hhead.
  simpl. destruct (decide (prev = Some (pot_id r))) as [Heq | Hne].
  - (* the row repeats the pot_id of the row before it: dropped *)
    destruct (IH prev Hprev') as (HA & HB & HC). split; [|split]; [| |done].
    + intros x Hx. destruct (HA x Hx) as (Hin & Hlt & Hts).
      split; [by right|]. split; [done|].
      intros y Hy Hpot. apply elem_of_cons in Hy as [-> | Hy]; [|by apply Hts].
      exfalso. specialize (Hlt (pot_id r) Heq). rewrite Hpot in Hlt.
      by apply pot_lt_irrefl in Hlt.
    + intros y Hy Hny. apply elem_of_cons in Hy as [-> | Hy]; [done|].
      by apply HB.
  - (* a new pot_id: kept *)
    destruct (IH (Some (pot_id r)) Hhead) as (HA & HB & HC).
    assert (forall q, prev = Some q -> pot_lt q (pot_id r)) as Hr.
    { intros q Hq. assert (pot_le q (pot_id r)) as Hle.
      { apply (Hprev q Hq). by left. }
      apply pot_le_lt_eq in Hle as [Hlt | ->]; [done | by subst prev]. }
    split; [|split].
    + intros x Hx. apply elem_of_cons in Hx as [-> | Hx].
      * split; [by left|]. split; [done|].
        intros y Hy Hpot. apply elem_of_cons in Hy as [-> | Hy]; [lia|].
        by apply (sorted_head_newest r y rest).
      * destruct (HA x Hx) as (Hin & Hlt & Hts).
        specialize (Hlt _ eq_refl).
        split; [by right|]. split.
        { intros q Hq. eapply pot_lt_trans; [by apply Hr | done]. }
        intros y Hy Hpot. apply elem_of_cons in Hy as [-> | Hy]; [|by apply Hts].
        exfalso. rewrite Hpot in Hlt. by apply pot_lt_irrefl in Hlt.
    + intros y Hy _. apply elem_of_cons in Hy as [-> | Hy].
      * exists r. split; [by left | done].
      * destruct (decide (pot_id r = pot_id y)) as [Hsame | Hdiff].
        { exists r. split; [by left | done]. }
        destruct (HB y Hy) as (x & Hx & Hpot); [congruence|].
        exists x. split; [by right | done].
    + rewrite fmap_cons. constructor; [done|].
      apply Forall_forall. intros q Hq.
      apply list_elem_of_fmap in Hq as (x & -> & Hx).
      destruct (HA x Hx) as (_ & Hlt & _). by apply Hlt.
Qed.

Lemma strictly_sorted_NoDup (l : list string) :
  StronglySorted pot_lt l -> NoDup l.
Proof.
  induction 1 as [|a l Hs IH Hall]; constructor; [|done].
  intros Hin. rewrite Forall_forall in Hall.
  by apply (pot_lt_irrefl a), Hall.
Qed.

Variable db : Store.

Lemma get_pots_latest_ok :
  get_pots_latest db
  = Some (db, mkResponse 200 (latest_body (select_latest db))).
Proof.
  unfold get_pots_latest, sql_select_latest, latest_body. simpl.
  by rewrite !length_fmap.
Qed.

Lemma select_latest_spec :
  (forall x, x ∈ select_latest db ->
     x ∈ rows db
     /\ (forall y, y ∈ rows db -> pot_id y = pot_id x ->
           timestamp y <= timestamp x))
  /\ (forall y, y ∈ rows db ->
       exists x, x ∈ select_latest db /\ pot_id x = pot_id y)
  /\ StronglySorted pot_lt (pot_id <$> select_latest db).
Proof.
  unfold select_latest.
  pose proof (merge_sort_Permutation by_pot_newest_first (rows db)) as Hperm.
  destruct (distinct_on_pot_id_spec
              (merge_sort by_pot_newest_first (rows db))
              (StronglySorted_merge_sort _ _) None) as (HA & HB & HC).
  { intros q Hq. discriminate. }
  split; [|split]; [| |done].
  - intros x Hx. destruct (HA x Hx) as (Hin & _ & Hts).
    split; [by rewrite <- Hperm|].
    intros y Hy. apply Hts. by rewrite Hperm.
  - intros y Hy. apply HB; [by rewrite Hperm | done].
Qed.

End Latest.

(** C5.  For every store, the latest-per-pot request is answered 200 with
    one row for each [pot_id] that occurs in the store and for no other.
    Each row of [data] shows the [pot_id], [location], [raw_value],
    [moisture_percent] and [timestamp] of the reading chosen for it; the
    chosen readings are in strictly ascending order of [pot_id], so no
    [pot_id] has two rows; and each is a stored reading whose [timestamp] is
    the maximum among the readings of its pot. *)
Theorem latest_one_per_pot (db : Store) :
  exists (data : list jsval) (chosen : list Reading),
    get_pots_latest db
    = Some (db, mkResponse 200
                  (VObj [("success", VBool true);
                         ("count", num_of_nat (length data));
                         ("data", VArr data)]))
    /\ Forall2 shows_latest data chosen
    /\ (forall p, p ∈ pot_id <$> rows db <-> p ∈ pot_id <$> chosen)
    /\ StronglySorted pot_lt (pot_id <$> chosen)
    /\ NoDup (pot_id <$> chosen)
    /\ (forall x, x ∈ chosen ->
          x ∈ rows db
          /\ forall y, y ∈ rows db -> pot_id y = pot_id x ->
               timestamp y <= timestamp x).
Proof.
  exists (row_latest <$> select_latest db), (select_latest db).
  destruct (select_latest_spec db) as (HA & HB & HC).
  split.
  { rewrite get_pots_latest_ok. unfold latest_body. by rewrite length_fmap. }
  split; [apply row_latest_shows|].
  split; [|split; [done|split; [by apply strictly_sorted_NoDup | done]]].
  intros p. rewrite !list_elem_of_fmap. split.
  - intros (y & -> & Hy). destruct (HB y Hy) as (x & Hx & Hpot). eauto.
  - intros (x & -> & Hx). destruct (HA x Hx) as (Hin & _). eauto.
Qed.

(** C6 (as amended).  Every row returned by the latest-per-pot request
    carries the [pot_id], [location], [raw_value], [moisture_percent] and
    [timestamp] of a stored reading, and no [id]. *)
Theorem latest_rows_columns (db : Store) :
  exists data : list jsval,
    (exists resp, get_pots_latest db = Some (db, resp)
                  /\ status resp = 200
                  /\ field "data" (body resp) = VArr data)
    /\ forall row, row ∈ data ->
         has_field "id" row = false
         /\ exists r, r ∈ rows db
              /\ field "pot_id" row = VStr (pot_id r)
              /\ field "location" row = text_or_null (location r)
              /\ field "raw_value" row = VNum (raw_value r)
              /\ field "moisture_percent" row = VNum (moisture_percent r)
              /\ field "timestamp" row = VDate (timestamp r).
Proof.
  exists (row_latest <$> select_latest db). split.
  - eexists. split; [apply get_pots_latest_ok|]. by split.
  - intros row Hrow. apply list_elem_of_fmap in Hrow as (r & -> & Hr).
    split; [done|]. exists r.
    destruct (select_latest_spec db) as (HA & _).
    destruct (HA r Hr) as (Hin & _). by repeat split.
Qed.

(** C6 (as stated) fails: the store below holds one reading, with [id] 7;
    the row returned for it has no [id] property. *)
Lemma latest_row_has_no_id :
  let db := mkStore [mkReading 7 "A" (Some "porch") 500 45 10] 8 in
  exists (resp : Response) (row : jsval),
    get_pots_latest db = Some (db, resp)
    /\ status resp = 200
    /\ field "data" (body resp) = VArr [row]
    /\ field "pot_id" row = VStr "A"
    /\ field "id" row = VUndefined
    /\ has_field "id" row = false.
Proof.
  intros db. eexists _, _. split; [vm_compute; reflexivity|].
  by repeat split.
Qed.

(** ** Inventory: GET /api/pots *)

Section Inventory.



Lemma pot_key_summarise (l : list Reading) (k : string * option string) :
  pot_key (summarise l k) = k.
Proof. by destruct k. Qed.

Variable db : Store.

Lemma get_pots_ok :
  get_pots db = Some (db, mkResponse 200 (pots_body (select_pots db))).
Proof.
  unfold get_pots, sql_select_pots, pots_body. simpl.
  by rewrite !length_fmap.
Qed.

Lemma select_pots_unsorted :
  select_pots db
  ≡ₚ summarise (rows db) <$> remove_dups (group_key <$> rows db).
Proof. apply merge_sort_Permutation. Qed.

Lemma select_pots_keys :
  pot_key <$> select_pots db ≡ₚ remove_dups (group_key <$> rows db).
Proof.
  rewrite select_pots_unsorted, <- list_fmap_compose.
  set (keys := remove_dups (group_key <$> rows db)).
  assert (pot_key ∘ summarise (rows db) <$> keys = keys) as ->; [|done].
  rewrite <- (list_fmap_id keys) at 2. apply list_fmap_ext.
  intros i k _. apply pot_key_summarise.
Qed.


End Inventory.


(** ** Retention cleanup: DELETE /api/readings/cleanup *)

Section Cleanup.

Variables (now : Z) (req_query : gmap string jsval) (db : Store).

Lemma days_is_text (s : string) (d : N) :
  days_is req_query s d ->
  template_text (js_or (prop req_query "days") (VNum 30)) = Some s
  /\ interval_of_days s = Ok (Z.of_N d * microseconds_per_day).
Proof.
  intros [Hq | s' d' Hq Hs Hd]; unfold prop; rewrite Hq.
  - split; reflexivity.
  - unfold js_or. rewrite (digits_in_truthy _ _ Hs). split; [done|].
    unfold interval_of_days. rewrite Hs.
    destruct (Z.leb_spec (Z.of_N d') interval_days_max); [done | lia].
Qed.

Lemma delete_cleanup_ok (s : string) (d : N) :
  days_is req_query s d ->
  let threshold := now - Z.of_N d * microseconds_per_day in
  timestamp_min <= threshold ->
  delete_cleanup now req_query db
  = Some (mkStore (filter (fun r => ~ older_than threshold r) (rows db))
                  (next_id db),
          mkResponse 200
            (VObj [("success", VBool true);
                   ("deleted",
                    num_of_nat (length (filter (older_than threshold) (rows db))));
                   ("message",
                    VStr ("Deleted readings older than " +:+ s +:+ " days"))])).
Proof.
  intros Hd threshold Hmin. destruct (days_is_text s d Hd) as (Htext & Hspan).
  unfold delete_cleanup. rewrite Htext.
  unfold sql_delete_older. rewrite Hspan. simpl. unfold timestamp_minus.
  fold threshold. destruct (Z.leb_spec timestamp_min threshold); [done | lia].
Qed.

End Cleanup.

(** C8 (as amended).  For every day count that is absent (then 30) or a
    string of digits within the 32-bit day field of an interval, and that
    leaves the store clock minus that many days a timestamp of the store,
    the cleanup request deletes exactly the readings whose [timestamp] is
    before that instant: the store keeps the other readings, each as it was
    and in the same order, and [deleted] is the number of readings
    removed. *)
Theorem cleanup_deletes_older (now : Z) (req_query : gmap string jsval)
    (db : Store) (s : string) (d : N) :
  days_is req_query s d ->
  let threshold := now - Z.of_N d * 86400000000 in
  timestamp_min <= threshold ->
  exists (db' : Store) (resp : Response) (deleted : nat),
    delete_cleanup now req_query db = Some (db', resp)
    /\ status resp = 200
    /\ field "deleted" (body resp) = num_of_nat deleted
    /\ rows db' = filter (fun r => threshold <= timestamp r) (rows db)
    /\ (forall r, r ∈ rows db -> timestamp r < threshold -> r ∉ rows db')
    /\ (forall r, r ∈ rows db -> threshold <= timestamp r -> r ∈ rows db')
    /\ deleted = length (filter (fun r => timestamp r < threshold) (rows db))
    /\ length (rows db) = (deleted + length (rows db'))%nat
    /\ next_id db' = next_id db
    /\ (req_query !! "days" = None -> d = 30%N).
Proof.
  intros Hd threshold Hmin.
  pose proof (delete_cleanup_ok now req_query db s d Hd Hmin) as Hrun.
  change microseconds_per_day with 86400000000 in Hrun.
  fold threshold in Hrun.
  assert (filter (fun r => ~ older_than threshold r) (rows db)
          = filter (fun r => threshold <= timestamp r) (rows db)) as Hkept.
  { apply list_filter_iff. intros r. unfold older_than. lia. }
  eexists _, _, _. split; [exact Hrun|].
  cbn [rows next_id status body]. rewrite Hkept.
  split; [done|]. split; [done|]. split; [done|].
  split; [|split; [|split; [|split; [|split]]]].
  - intros r _ Hold Hin. apply list_elem_of_filter in Hin as (Hge & _). lia.
  - intros r Hr Hge. by apply list_elem_of_filter.
  - done.
  - rewrite <- Hkept, <- length_app.
    apply Permutation_length. symmetry.
    apply (filter_app_complement (older_than threshold)).
  - done.
  - intros Hq. destruct Hd as [_ | s d Hs _ _]; [done | congruence].
Qed.

Lemma cleanup_deletes_older_witness :
  let req_query : gmap string jsval := {[ "days" := VStr "1" ]} in
  let db := mkStore [mkReading 1 "A" None 500 45 10;
                     mkReading 2 "B" None 300 20 86400000020;
                     mkReading 3 "A" None 510 46 20] 4 in
  let now := 86400000015 in
  let threshold := now - Z.of_N 1 * 86400000000 in
  days_is req_query "1" 1
  /\ timestamp_min <= threshold
  /\ exists (db' : Store) (resp : Response) (deleted : nat),
       delete_cleanup now req_query db = Some (db', resp)
       /\ status resp = 200
       /\ field "deleted" (body resp) = num_of_nat deleted
       /\ rows db' = filter (fun r => threshold <= timestamp r) (rows db)
       /\ (forall r, r ∈ rows db -> timestamp r < threshold -> r ∉ rows db')
       /\ (forall r, r ∈ rows db -> threshold <= timestamp r -> r ∈ rows db')
       /\ deleted = length (filter (fun r => timestamp r < threshold) (rows db))
       /\ length (rows db) = (deleted + length (rows db'))%nat
       /\ next_id db' = next_id db
       /\ (req_query !! "days" = None -> 1%N = 30%N).
Proof.
  intros req_query db now threshold.
  assert (days_is req_query "1" 1) as Hd.
  { apply (days_given req_query "1" 1);
      [reflexivity | reflexivity | unfold interval_days_max; lia]. }
  assert (timestamp_min <= threshold) as Hmin.
  { vm_compute. discriminate. }
  split; [exact Hd|]. split; [exact Hmin|].
  exact (cleanup_deletes_older now req_query db "1" 1 Hd Hmin).
Defined.

(** C8 (as stated) fails: [days] is spliced into the statement unchecked,
    and the store rejects a day count beyond the 32-bit day field of an
    interval; the request below is answered 500, without [deleted]. *)
Lemma cleanup_days_out_of_range_fails :
  let req_query : gmap string jsval := {[ "days" := VStr "2147483648" ]} in
  let db := mkStore [mkReading 1 "A" None 500 45 10] 2 in
  exists resp : Response,
    delete_cleanup 86400000015 req_query db = Some (db, resp)
    /\ status resp = 500
    /\ field "error" (body resp) = VStr "Failed to cleanup readings"
    /\ field "deleted" (body resp) = VUndefined.
Proof.
  intros req_query db. eexists. split; [vm_compute; reflexivity|].
  by repeat split.
Qed.

(** ** The count of the list responses *)

Lemma try_query_resolved (run : Settled) (db' : Store)
    (respond : QueryResult -> Response) (summary : string) (resp : Response) :
  try_query run respond summary = Some (db', resp) ->
  status resp <> 500 ->
  exists result, run = Resolved result db' /\ resp = respond result.
Proof.
  unfold try_query. destruct run as [result db''|msg db''|]; [| |done].
  - intros [= <- <-] _. eauto.
  - intros [= <- <-] Hst. by destruct Hst.
Qed.

(** C10.  In every successful (200) response of the history request the
    [count] is the length of the [data] array, and the latest-per-pot and
    the inventory requests always answer 200 with a [count] that is the
    length of their [data] array. *)
Theorem count_is_length_of_data :
  (forall (p : string) (req_query : gmap string jsval) (db db' : Store)
          (resp : Response),
     get_moisture p req_query db = Some (db', resp) -> status resp = 200 ->
     exists data, field "data" (body resp) = VArr data
                  /\ field "count" (body resp) = num_of_nat (length data))
  /\ (forall db : Store, exists resp data,
        get_pots_latest db = Some (db, resp) /\ status resp = 200
        /\ field "data" (body resp) = VArr data
        /\ field "count" (body resp) = num_of_nat (length data))
  /\ (forall db : Store, exists resp data,
        get_pots db = Some (db, resp) /\ status resp = 200
        /\ field "data" (body resp) = VArr data
        /\ field "count" (body resp) = num_of_nat (length data)).
Proof.
  split; [|split].
  - intros p req_query db db' resp Hrun Hst. unfold get_moisture in Hrun.
    apply try_query_resolved in Hrun as (result & _ & ->); [|by rewrite Hst].
    by exists (q_rows result).
  - intros db. eexists _, (row_latest <$> select_latest db).
    split; [apply get_pots_latest_ok|].
    repeat split. simpl. by rewrite length_fmap.
  - intros db. eexists _, (row_pot <$> select_pots db).
    split; [apply get_pots_ok|].
    repeat split. simpl. by rewrite length_fmap.
Qed.

Lemma count_is_length_of_data_witness :
  let req_query : gmap string jsval := {[ "limit" := VStr "1" ]} in
  let db := mkStore [mkReading 1 "A" None 500 45 10;
                     mkReading 2 "A" None 510 46 20] 3 in
  let resp := mkResponse 200 (history_body "A" [mkReading 2 "A" None 510 46 20]) in
  get_moisture "A" req_query db = Some (db, resp)
  /\ status resp = 200
  /\ exists data, field "data" (body resp) = VArr data
                  /\ field "count" (body resp) = num_of_nat (length data).
Proof.
  intros req_query db resp.
  assert (get_moisture "A" req_query db = Some (db, resp)) as Hrun.
  { vm_compute. reflexivity. }
  split; [exact Hrun|]. split; [reflexivity|].
  exact (proj1 count_is_length_of_data "A" req_query db db resp Hrun eq_refl).
Defined.


(** * Further properties of the handlers *)

(** ** Ingest *)

Lemma is_undefined_spec (v : jsval) : is_undefined v = true <-> v = VUndefined.
Proof. destruct v; simpl; split; intros H; done. Qed.

Lemma sql_insert_reading_cases (now : Z) (values : list jsval) (db : Store) :
  (exists r, sql_insert_reading now values db
             = Resolved (mkResult [row_star r] 1)
                        (mkStore (rows db ++ [r]) (next_id db + 1))
             /\ id r = next_id db /\ timestamp r = now)
  \/ (exists msg db', sql_insert_reading now values db = Rejected msg db'
                      /\ rows db' = rows db
                      /\ (next_id db' = next_id db
                          \/ next_id db' = next_id db + 1))
  \/ sql_insert_reading now values db = Unmodelled.
Proof.
  unfold sql_insert_reading.
  destruct values as [|v1 [|v2 [|v3 [|v4 [|v5 rest]]]]];
    try (right; left; eexists _, db; split; [reflexivity|]; split; [done|]; by left).
  destruct (text_param v1) as [p| |]; simpl; [| |by right; right];
    [|right; left; eexists _, db; split; [reflexivity|]; split; [done|]; by left].
  destruct (text_param v2) as [l| |]; simpl; [| |by right; right];
    [|right; left; eexists _, db; split; [reflexivity|]; split; [done|]; by left].
  destruct (numeric_param v3) as [a| |]; simpl; [| |by right; right];
    [|right; left; eexists _, db; split; [reflexivity|]; split; [done|]; by left].
  destruct (numeric_param v4) as [b| |]; simpl; [| |by right; right];
    [|right; left; eexists _, db; split; [reflexivity|]; split; [done|]; by left].
  destruct p as [p|], a as [a|], b as [b|]; simpl;
    try (right; left; eexists _, _; split; [reflexivity|]; split; [done|];
         by right).
  left. eexists. by repeat split.
Qed.

Lemma post_moisture_cases (now : Z) (req_body : gmap string jsval)
    (db db' : Store) (resp : Response) :
  post_moisture now req_body db = Some (db', resp) ->
  (truthy (prop req_body "pot_id") = false
   \/ prop req_body "raw_value" = VUndefined
   \/ prop req_body "moisture_percent" = VUndefined)
  /\ db' = db /\ resp = mkResponse 400 missing_fields_body
  \/ (truthy (prop req_body "pot_id") = true
      /\ prop req_body "raw_value" <> VUndefined
      /\ prop req_body "moisture_percent" <> VUndefined)
     /\ ((exists r, resp = mkResponse 201
                      (VObj [("success", VBool true); ("data", row_star r)])
                    /\ db' = mkStore (rows db ++ [r]) (next_id db + 1)
                    /\ id r = next_id db /\ timestamp r = now)
         \/ (exists msg, resp = mkResponse 500
                           (VObj [("error", VStr "Failed to save reading");
                                  ("details", VStr msg)])
                         /\ rows db' = rows db
                         /\ (next_id db' = next_id db
                             \/ next_id db' = next_id db + 1))).
Proof.
  unfold post_moisture.
  destruct (truthy (prop req_body "pot_id")) eqn:Hp; cbn [negb orb].
  2:{ intros [= <- <-]. left. auto. }
  destruct (is_undefined (prop req_body "raw_value")) eqn:Ha; cbn [orb].
  { apply is_undefined_spec in Ha. intros [= <- <-]. left. auto. }
  destruct (is_undefined (prop req_body "moisture_percent")) eqn:Hb.
  { apply is_undefined_spec in Hb. intros [= <- <-]. left. auto. }
  intros Hrun. right. split.
  { split; [done|]. split; intros Hu; apply is_undefined_spec in Hu; congruence. }
  unfold try_query in Hrun.
  destruct (sql_insert_reading_cases now
              [prop req_body "pot_id"; js_or (prop req_body "location") VNull;
               prop req_body "raw_value"; prop req_body "moisture_percent"] db)
    as [(r & Hq & Hid & Hts) | [(msg & db'' & Hq & Hrows & Hnext) | Hq]];
    rewrite Hq in Hrun; [| |done].
  - injection Hrun as <- <-. left. exists r. by repeat split.
  - injection Hrun as <- <-. right. by exists msg.
Qed.

(** X1.  The ingest request is answered 400 exactly when [pot_id] is falsy
    (absent, null, false, 0 or the empty string) or [raw_value] or
    [moisture_percent] is undefined; the store is then as it was. *)
Theorem ingest_rejected_iff (now : Z) (req_body : gmap string jsval)
    (db : Store) :
  let missing :=
    truthy (prop req_body "pot_id") = false
    \/ prop req_body "raw_value" = VUndefined
    \/ prop req_body "moisture_percent" = VUndefined in
  (missing ->
   post_moisture now req_body db = Some (db, mkResponse 400 missing_fields_body))
  /\ (forall db' resp,
        post_moisture now req_body db = Some (db', resp) ->
        status resp = 400 -> missing).
Proof.
  intros missing. split.
  - unfold missing, post_moisture. intros [H | [H | H]]; rewrite H.
    + reflexivity.
    + cbn [is_undefined]. by rewrite orb_true_r.
    + cbn [is_undefined]. by rewrite orb_true_r.
  - intros db' resp Hrun Hst.
    apply post_moisture_cases in Hrun
      as [(Hm & _) | (_ & [(r & -> & _) | (msg & -> & _)])];
      [done | discriminate | discriminate].
Qed.

Lemma ingest_rejected_iff_witness :
  let req_body : gmap string jsval :=
    {[ "pot_id" := VNum 0; "raw_value" := VNum 512;
       "moisture_percent" := VNum 40 ]} in
  let db := mkStore [mkReading 1 "A" None 500 45 10] 2 in
  truthy (prop req_body "pot_id") = false
  /\ post_moisture 99 req_body db
     = Some (db, mkResponse 400 missing_fields_body).
Proof.
  intros req_body db. split; [reflexivity|].
  apply (proj1 (ingest_rejected_iff 99 req_body db)). left. reflexivity.
Defined.

(** X2.  A request with a non-empty string [pot_id] whose [raw_value] or
    [moisture_percent] is null (the other being null or a number) passes the
    check of the handler, is rejected by the NOT NULL column, and is answered
    500 with the summary of the handler and the message of the store; no row
    is stored, but the [id] the rejected row had taken from the sequence is
    used up. *)
Theorem ingest_null_reading_fails (now : Z) (req_body : gmap string jsval)
    (db : Store) (p : string) (v1 v2 : jsval) :
  req_body !! "pot_id" = Some (VStr p) -> p <> "" ->
  (let location := prop req_body "location" in
   truthy location = false \/ exists s, location = VStr s) ->
  req_body !! "raw_value" = Some v1 ->
  req_body !! "moisture_percent" = Some v2 ->
  (v1 = VNull \/ exists a, v1 = VNum a) ->
  (v2 = VNull \/ exists b, v2 = VNum b) ->
  v1 = VNull \/ v2 = VNull ->
  exists details : string,
    post_moisture now req_body db
    = Some (mkStore (rows db) (next_id db + 1),
            mkResponse 500
              (VObj [("error", VStr "Failed to save reading");
                     ("details", VStr details)])).
Proof.
  intros Hp Hne Hloc Ha Hb H1 H2 Hnull. unfold post_moisture.
  pose proof (location_param _ Hloc) as Hl.
  unfold prop in *. rewrite Hp, Ha, Hb.
  rewrite (truthy_nonempty p Hne). cbn [negb orb].
  unfold sql_insert_reading. rewrite Hl.
  destruct H1 as [-> | [a ->]], H2 as [-> | [b ->]]; simpl; eauto.
  by destruct Hnull.
Qed.

Lemma ingest_null_reading_fails_witness :
  let req_body : gmap string jsval :=
    {[ "pot_id" := VStr "A"; "raw_value" := VNum 512;
       "moisture_percent" := VNull ]} in
  let db := mkStore [mkReading 1 "A" None 500 45 10] 2 in
  exists details : string,
    post_moisture 99 req_body db
    = Some (mkStore (rows db) (next_id db + 1),
            mkResponse 500
              (VObj [("error", VStr "Failed to save reading");
                     ("details", VStr details)])).
Proof.
  intros req_body db.
  apply (ingest_null_reading_fails 99 req_body db "A" (VNum 512) VNull);
    [reflexivity | discriminate | left; reflexivity | reflexivity
    | reflexivity | right; by exists 512%Q | left; reflexivity
    | right; reflexivity].
Defined.

(** X3.  Whenever the ingest request is answered, it adds a row only when
    the answer is 201: it then appends one row, whose [id] is the next value
    of the sequence and whose [timestamp] is the store clock, after the rows
    that were there, and returns that row as [data].  With a 400 the store
    is as it was; with a 500 the rows are as they were, and the sequence is
    where it was or one value further. *)
Theorem ingest_writes_only_on_201 (now : Z) (req_body : gmap string jsval)
    (db db' : Store) (resp : Response) :
  post_moisture now req_body db = Some (db', resp) ->
  (status resp = 201
   /\ exists r, rows db' = rows db ++ [r]
                /\ next_id db' = next_id db + 1
                /\ id r = next_id db /\ timestamp r = now
                /\ field "data" (body resp) = row_star r
                /\ field "id" (field "data" (body resp)) = num_of_Z (next_id db)
                /\ field "timestamp" (field "data" (body resp)) = VDate now)
  \/ (status resp = 400 /\ db' = db)
  \/ (status resp = 500 /\ rows db' = rows db
      /\ (next_id db' = next_id db \/ next_id db' = next_id db + 1)).
Proof.
  intros Hrun.
  apply post_moisture_cases in Hrun
    as [(_ & -> & ->) | (_ & [(r & -> & -> & Hid & Hts) |
                               (msg & -> & Hrows & Hnext)])].
  - right. left. by split.
  - left. split; [done|]. exists r. cbn. rewrite Hid, Hts. by repeat split.
  - right. right. by repeat split.
Qed.

Lemma ingest_writes_only_on_201_witness :
  let req_body : gmap string jsval :=
    {[ "pot_id" := VStr "A"; "raw_value" := VNum 512;
       "moisture_percent" := VNum 40 ]} in
  let db := mkStore [mkReading 1 "A" None 500 45 10] 2 in
  let r := mkReading 2 "A" None 512 40 99 in
  let db' := mkStore [mkReading 1 "A" None 500 45 10; r] 3 in
  let resp := mkResponse 201
                (VObj [("success", VBool true); ("data", row_star r)]) in
  post_moisture 99 req_body db = Some (db', resp)
  /\ ((status resp = 201
       /\ exists r, rows db' = rows db ++ [r]
                    /\ next_id db' = next_id db + 1
                    /\ id r = next_id db /\ timestamp r = 99
                    /\ field "data" (body resp) = row_star r
                    /\ field "id" (field "data" (body resp))
                       = num_of_Z (next_id db)
                    /\ field "timestamp" (field "data" (body resp)) = VDate 99)
      \/ (status resp = 400 /\ db' = db)
      \/ (status resp = 500 /\ rows db' = rows db
          /\ (next_id db' = next_id db \/ next_id db' = next_id db + 1))).
Proof.
  intros req_body db r db' resp.
  assert (post_moisture 99 req_body db = Some (db', resp)) as Hrun.
  { vm_compute. reflexivity. }
  split; [exact Hrun|].
  exact (ingest_writes_only_on_201 99 req_body db db' resp Hrun).
Defined.

(** X4.  What [location || null] stores: for an accepted reading, a falsy
    [location] (absent, null, the empty string) is stored as NULL and comes
    back as null in [data], and a non-empty string is stored and comes back
    as it is. *)
Theorem ingest_location_or_null (now : Z) (req_body : gmap string jsval)
    (db : Store) (p : string) (a b : Q) :
  req_body !! "pot_id" = Some (VStr p) -> p <> "" ->
  (let location := prop req_body "location" in
   truthy location = false \/ exists s, location = VStr s) ->
  req_body !! "raw_value" = Some (VNum a) ->
  req_body !! "moisture_percent" = Some (VNum b) ->
  exists (r : Reading) (db' : Store) (resp : Response),
    post_moisture now req_body db = Some (db', resp)
    /\ rows db' = rows db ++ [r]
    /\ (truthy (prop req_body "location") = false ->
        location r = None
        /\ field "location" (field "data" (body resp)) = VNull)
    /\ (forall s, prop req_body "location" = VStr s -> s <> "" ->
        location r = Some s
        /\ field "location" (field "data" (body resp)) = VStr s).
Proof.
  intros Hp Hne Hloc Ha Hb.
  eexists _, _, _. split.
  { by apply (post_moisture_stores now req_body db p a b). }
  split; [done|]. cbn. split.
  - intros Hfalsy. destruct (prop req_body "location"); try done.
    simpl in *. by destruct (String.eqb s "").
  - intros s -> Hs. simpl.
    by destruct (String.eqb_spec s "").
Qed.

Lemma ingest_location_or_null_witness :
  let req_body : gmap string jsval :=
    {[ "pot_id" := VStr "A"; "location" := VStr "";
       "raw_value" := VNum 512; "moisture_percent" := VNum 40 ]} in
  let db := mkStore [] 1 in
  exists (r : Reading) (db' : Store) (resp : Response),
    post_moisture 99 req_body db = Some (db', resp)
    /\ rows db' = rows db ++ [r]
    /\ (truthy (prop req_body "location") = false ->
        location r = None
        /\ field "location" (field "data" (body resp)) = VNull)
    /\ (forall s, prop req_body "location" = VStr s -> s <> "" ->
        location r = Some s
        /\ field "location" (field "data" (body resp)) = VStr s).
Proof.
  intros req_body db.
  apply (ingest_location_or_null 99 req_body db "A" 512 40);
    [reflexivity | discriminate | left; reflexivity | reflexivity
    | reflexivity].
Defined.

(** ** History *)

Lemma get_moisture_cases (p : string) (req_query : gmap string jsval)
    (db db' : Store) (resp : Response) :
  get_moisture p req_query db = Some (db', resp) ->
  db' = db
  /\ ((exists n, limit_param (js_or (prop req_query "limit") (VNum 100)) = Ok n
                 /\ resp = mkResponse 200 (history_body p (select_history p n db)))
      \/ (exists msg, resp = mkResponse 500
                               (VObj [("error", VStr "Failed to fetch readings");
                                      ("details", VStr msg)]))).
Proof.
  unfold get_moisture, sql_select_history. simpl.
  destruct (limit_param _) as [n|msg|]; simpl; [| |done].
  - intros [= <- <-]. split; [done|]. left. exists n. split; [done|].
    unfold history_body. by rewrite !length_fmap.
  - intros [= <- <-]. split; [done|]. right. by exists msg.
Qed.

(** X5.  Whatever the query, the history request leaves the store as it
    was, and it answers either 200, echoing the [pot_id] of the route, or
    500. *)
Theorem history_reads_only (p : string) (req_query : gmap string jsval)
    (db db' : Store) (resp : Response) :
  get_moisture p req_query db = Some (db', resp) ->
  db' = db
  /\ ((status resp = 200 /\ field "success" (body resp) = VBool true
       /\ field "pot_id" (body resp) = VStr p)
      \/ status resp = 500).
Proof.
  intros Hrun.
  apply get_moisture_cases in Hrun as (-> & [(n & _ & ->) | (msg & ->)]).
  - split; [done|]. left. by repeat split.
  - split; [done|]. by right.
Qed.

Lemma history_reads_only_witness :
  let req_query : gmap string jsval := {[ "limit" := VStr "5" ]} in
  let db := mkStore [mkReading 1 "A" None 500 45 10] 2 in
  let resp := mkResponse 200 (history_body "A" [mkReading 1 "A" None 500 45 10]) in
  get_moisture "A" req_query db = Some (db, resp)
  /\ db = db
  /\ ((status resp = 200 /\ field "success" (body resp) = VBool true
       /\ field "pot_id" (body resp) = VStr "A")
      \/ status resp = 500).
Proof.
  intros req_query db resp.
  assert (get_moisture "A" req_query db = Some (db, resp)) as Hrun.
  { vm_compute. reflexivity. }
  split; [exact Hrun|].
  exact (history_reads_only "A" req_query db db resp Hrun).
Defined.

(** X6.  A 500 answer of the ingest request stores no row, and one of the
    history request leaves the store as it was; either carries the summary
    of its handler as [error] and a string as [details].  The last-resort
    handler answers 500 with the same two properties. *)
Theorem server_errors_carry_details :
  (forall now req_body db db' resp,
     post_moisture now req_body db = Some (db', resp) -> status resp = 500 ->
     rows db' = rows db
     /\ field "error" (body resp) = VStr "Failed to save reading"
     /\ is_string (field "details" (body resp)))
  /\ (forall p req_query db db' resp,
        get_moisture p req_query db = Some (db', resp) -> status resp = 500 ->
        db' = db
        /\ field "error" (body resp) = VStr "Failed to fetch readings"
        /\ is_string (field "details" (body resp)))
  /\ (forall message,
        status (error_middleware message) = 500
        /\ field "error" (body (error_middleware message))
           = VStr "Something went wrong!"
        /\ field "details" (body (error_middleware message)) = VStr message).
Proof.
  split; [|split].
  - intros now req_body db db' resp Hrun Hst.
    apply post_moisture_cases in Hrun
      as [(_ & _ & ->) | (_ & [(r & -> & _) | (msg & -> & Hrows & _)])];
      [discriminate | discriminate |].
    split; [done|]. split; [done|]. by exists msg.
  - intros p req_query db db' resp Hrun Hst.
    apply get_moisture_cases in Hrun as (-> & [(n & _ & ->) | (msg & ->)]);
      [discriminate|].
    split; [done|]. split; [done|]. by exists msg.
  - intros message. by repeat split.
Qed.

Lemma server_errors_carry_details_witness :
  let req_body : gmap string jsval :=
    {[ "pot_id" := VStr "A"; "raw_value" := VNull;
       "moisture_percent" := VNum 40 ]} in
  let db := mkStore [mkReading 1 "A" None 500 45 10] 2 in
  let db' := mkStore [mkReading 1 "A" None 500 45 10] 3 in
  exists resp,
    post_moisture 99 req_body db = Some (db', resp)
    /\ status resp = 500
    /\ rows db' = rows db
    /\ field "error" (body resp) = VStr "Failed to save reading"
    /\ is_string (field "details" (body resp)).
Proof.
  intros req_body db db'. eexists.
  assert (post_moisture 99 req_body db
          = Some (db', mkResponse 500
                         (VObj [("error", VStr "Failed to save reading");
                                ("details",
                                 VStr "null value violates not-null constraint: raw_value")])))
    as Hrun.
  { vm_compute. reflexivity. }
  split; [exact Hrun|]. split; [reflexivity|].
  exact (proj1 server_errors_carry_details 99 req_body db db' _ Hrun eq_refl).
Defined.

(** X7.  A [limit] that is the empty string is falsy, so the history request
    answers as if the query had no [limit]; likewise an empty [days] for the
    cleanup request. *)
Theorem empty_parameter_is_default :
  (forall p (req_query : gmap string jsval) db,
     req_query !! "limit" = Some (VStr "") ->
     get_moisture p req_query db = get_moisture p (delete "limit" req_query) db)
  /\ (forall now (req_query : gmap string jsval) db,
        req_query !! "days" = Some (VStr "") ->
        delete_cleanup now req_query db
        = delete_cleanup now (delete "days" req_query) db).
Proof.
  split.
  - intros p req_query db Hq. unfold get_moisture, prop.
    by rewrite Hq, lookup_delete_eq.
  - intros now req_query db Hq. unfold delete_cleanup, prop.
    by rewrite Hq, lookup_delete_eq.
Qed.

Lemma empty_parameter_is_default_witness :
  let req_query : gmap string jsval := {[ "limit" := VStr "" ]} in
  let db := mkStore [mkReading 1 "A" None 500 45 10] 2 in
  req_query !! "limit" = Some (VStr "")
  /\ get_moisture "A" req_query db
     = get_moisture "A" (delete "limit" req_query) db.
Proof.
  intros req_query db. split; [reflexivity|].
  apply (proj1 empty_parameter_is_default "A" req_query db). reflexivity.
Defined.

(** X8.  The handler puts no bound on [limit]: a string of digits that
    spells a number above the largest bigint reaches the store, which
    rejects it, and the request is answered 500 with the store as it was. *)
Theorem history_limit_out_of_range (p : string)
    (req_query : gmap string jsval) (db : Store) (s : string) (k : N) :
  req_query !! "limit" = Some (VStr s) ->
  digits_in s = Some k ->
  bigint_max < Z.of_N k ->
  exists details : string,
    get_moisture p req_query db
    = Some (db, mkResponse 500
                  (VObj [("error", VStr "Failed to fetch readings");
                         ("details", VStr details)])).
Proof.
  intros Hq Hs Hk. unfold get_moisture, sql_select_history, prop.
  rewrite Hq. unfold js_or. rewrite (digits_in_truthy s k Hs). simpl.
  rewrite (digits_in_integer s k Hs).
  destruct (Z.ltb_spec (Z.of_N k) 0); [lia|].
  destruct (Z.leb_spec (Z.of_N k) bigint_max); [lia|].
  simpl. eauto.
Qed.

Lemma history_limit_out_of_range_witness :
  let req_query : gmap string jsval :=
    {[ "limit" := VStr "9223372036854775808" ]} in
  let db := mkStore [mkReading 1 "A" None 500 45 10] 2 in
  exists details : string,
    get_moisture "A" req_query db
    = Some (db, mkResponse 500
                  (VObj [("error", VStr "Failed to fetch readings");
                         ("details", VStr details)])).
Proof.
  intros req_query db.
  apply (history_limit_out_of_range "A" req_query db
           "9223372036854775808" 9223372036854775808);
    [reflexivity | reflexivity | unfold bigint_max; lia].
Defined.

(** X9.  When the pot has no more readings than the limit, the history
    request returns all of them: the rows of [data] show, column by column,
    exactly the readings of the pot, and [count] is their number. *)
Theorem history_complete_within_limit (p : string)
    (req_query : gmap string jsval) (db : Store) (n : nat) :
  limit_is req_query n ->
  (length (filter (fun r => pot_id r = p) (rows db)) <= n)%nat ->
  exists (data : list jsval) (chosen : list Reading),
    get_moisture p req_query db
    = Some (db, mkResponse 200
                  (VObj [("success", VBool true);
                         ("pot_id", VStr p);
                         ("count",
                          num_of_nat
                            (length (filter (fun r => pot_id r = p) (rows db))));
                         ("data", VArr data)]))
    /\ Forall2 shows_reading data chosen
    /\ chosen ≡ₚ filter (fun r => pot_id r = p) (rows db).
Proof.
  intros Hn Hlen.
  exists (row_star <$> select_history p n db), (select_history p n db).
  assert (select_history p n db ≡ₚ filter (fun r => pot_id r = p) (rows db))
    as Hperm.
  { unfold select_history. rewrite take_ge; [apply merge_sort_Permutation|].
    by rewrite (Permutation_length (merge_sort_Permutation _ _)). }
  split.
  { rewrite (get_moisture_ok p req_query db n Hn). unfold history_body.
    by rewrite (Permutation_length Hperm). }
  split; [apply row_star_shows | done].
Qed.

Lemma history_complete_within_limit_witness :
  let req_query : gmap string jsval := ∅ in
  let db := mkStore [mkReading 1 "A" None 500 45 10;
                     mkReading 2 "B" None 300 20 15;
                     mkReading 3 "A" None 510 46 20] 4 in
  limit_is req_query 100
  /\ (length (filter (fun r => pot_id r = "A") (rows db)) <= 100)%nat
  /\ exists (data : list jsval) (chosen : list Reading),
       get_moisture "A" req_query db
       = Some (db, mkResponse 200
                     (VObj [("success", VBool true);
                            ("pot_id", VStr "A");
                            ("count",
                             num_of_nat
                               (length (filter (fun r => pot_id r = "A") (rows db))));
                            ("data", VArr data)]))
       /\ Forall2 shows_reading data chosen
       /\ chosen ≡ₚ filter (fun r => pot_id r = "A") (rows db).
Proof.
  intros req_query db.
  assert (limit_is req_query 100) as Hn.
  { apply limit_default. reflexivity. }
  assert (length (filter (fun r => pot_id r = "A") (rows db)) <= 100)%nat
    as Hlen.
  { vm_compute. lia. }
  split; [exact Hn|]. split; [exact Hlen|].
  exact (history_complete_within_limit "A" req_query db 100 Hn Hlen).
Defined.

(** X10.  Every row of a 200 history answer is a full reading of the
    requested pot: it is the [SELECT *] row of a stored reading whose
    [pot_id] is the one of the route, [id] included. *)
Theorem history_rows_full (p : string) (req_query : gmap string jsval)
    (db db' : Store) (resp : Response) :
  get_moisture p req_query db = Some (db', resp) ->
  status resp = 200 ->
  exists data : list jsval,
    field "data" (body resp) = VArr data
    /\ forall row, row ∈ data ->
         exists r, r ∈ rows db /\ pot_id r = p /\ row = row_star r
                   /\ field "id" row = num_of_Z (id r)
                   /\ field "pot_id" row = VStr p.
Proof.
  intros Hrun Hst.
  apply get_moisture_cases in Hrun as (-> & [(n & _ & ->) | (msg & ->)]);
    [|discriminate].
  exists (row_star <$> select_history p n db). split; [done|].
  intros row Hrow. apply list_elem_of_fmap in Hrow as (r & -> & Hr).
  unfold select_history in Hr.
  apply elem_of_take in Hr as (i & Hr & _).
  apply list_elem_of_lookup_2 in Hr.
  rewrite merge_sort_Permutation in Hr.
  apply list_elem_of_filter in Hr as (Hp & Hr).
  exists r. repeat split; try done. simpl. by rewrite Hp.
Qed.

Lemma history_rows_full_witness :
  let req_query : gmap string jsval := {[ "limit" := VStr "5" ]} in
  let db := mkStore [mkReading 1 "A" None 500 45 10] 2 in
  let resp := mkResponse 200 (history_body "A" [mkReading 1 "A" None 500 45 10]) in
  get_moisture "A" req_query db = Some (db, resp)
  /\ status resp = 200
  /\ exists data : list jsval,
       field "data" (body resp) = VArr data
       /\ forall row, row ∈ data ->
            exists r, r ∈ rows db /\ pot_id r = "A" /\ row = row_star r
                      /\ field "id" row = num_of_Z (id r)
                      /\ field "pot_id" row = VStr "A".
Proof.
  intros req_query db resp.
  assert (get_moisture "A" req_query db = Some (db, resp)) as Hrun.
  { vm_compute. reflexivity. }
  split; [exact Hrun|]. split; [reflexivity|].
  exact (history_rows_full "A" req_query db db resp Hrun eq_refl).
Defined.

(** ** Cleanup *)

Lemma delete_cleanup_cases (now : Z) (req_query : gmap string jsval)
    (db db' : Store) (resp : Response) :
  delete_cleanup now req_query db = Some (db', resp) ->
  (exists (days : string) (threshold : Z),
     db' = mkStore (filter (fun r => ~ older_than threshold r) (rows db))
                   (next_id db)
     /\ resp = mkResponse 200
                 (VObj [("success", VBool true);
                        ("deleted",
                         num_of_nat (length (filter (older_than threshold) (rows db))));
                        ("message",
                         VStr ("Deleted readings older than " +:+ days +:+ " days"))]))
  \/ (db' = db
      /\ exists msg, resp = mkResponse 500
                              (VObj [("error", VStr "Failed to cleanup readings");
                                     ("details", VStr msg)])).
Proof.
  unfold delete_cleanup.
  destruct (template_text _) as [days|]; [|done].
  unfold sql_delete_older, interval_of_days, timestamp_minus.
  destruct (digits_in days) as [n|]; [|done].
  destruct (Z.leb (Z.of_N n) interval_days_max); simpl.
  - destruct (Z.leb timestamp_min _); [|done]. simpl.
    intros [= <- <-]. left. by eexists days, _.
  - intros [= <- <-]. right. split; [done|]. eauto.
Qed.

Lemma select_history_elem (p : string) (n : nat) (db : Store) (r : Reading) :
  r ∈ select_history p n db -> r ∈ rows db /\ pot_id r = p.
Proof.
  unfold select_history. intros Hr.
  apply elem_of_take in Hr as (i & Hr & _).
  apply list_elem_of_lookup_2 in Hr.
  rewrite merge_sort_Permutation in Hr.
  by apply list_elem_of_filter in Hr as (Hp & Hr).
Qed.

Lemma filter_older_kept (threshold : Z) (l : list Reading) :
  filter (older_than threshold)
    (filter (fun r => ~ older_than threshold r) l) = [].
Proof.
  rewrite list_filter_filter. induction l as [|r l IH]; [done|].
  rewrite filter_cons.
  destruct (decide _) as [[H1 H2]|_]; [by destruct H2 | apply IH].
Qed.

(** X11.  Cleanup is idempotent at a given clock: once it has run, running
    it again with the same [days] deletes nothing and leaves the store as
    the first run left it. *)
Theorem cleanup_idempotent (now : Z) (req_query : gmap string jsval)
    (db : Store) (s : string) (d : N) :
  days_is req_query s d ->
  timestamp_min <= now - Z.of_N d * 86400000000 ->
  exists (db1 : Store) (resp1 resp2 : Response),
    delete_cleanup now req_query db = Some (db1, resp1)
    /\ delete_cleanup now req_query db1 = Some (db1, resp2)
    /\ status resp2 = 200
    /\ field "deleted" (body resp2) = VNum 0.
Proof.
  intros Hd Hmin.
  pose proof (delete_cleanup_ok now req_query db s d Hd Hmin) as Hrun1.
  set (threshold := now - Z.of_N d * microseconds_per_day) in *.
  set (db1 := mkStore (filter (fun r => ~ older_than threshold r) (rows db))
                      (next_id db)) in *.
  pose proof (delete_cleanup_ok now req_query db1 s d Hd Hmin) as Hrun2.
  fold threshold in Hrun2.
  assert (filter (older_than threshold) (rows db1) = []) as Hnone.
  { apply filter_older_kept. }
  assert (filter (fun r => ~ older_than threshold r) (rows db1) = rows db1)
    as Hsame.
  { simpl. by apply list_filter_filter_l. }
  rewrite Hnone, Hsame in Hrun2.
  eexists db1, _, _. split; [exact Hrun1|]. split; [exact Hrun2|]. by split.
Qed.

Lemma cleanup_idempotent_witness :
  let req_query : gmap string jsval := {[ "days" := VStr "1" ]} in
  let db := mkStore [mkReading 1 "A" None 500 45 10;
                     mkReading 2 "B" None 300 20 86400000020] 3 in
  let now := 86400000015 in
  days_is req_query "1" 1
  /\ timestamp_min <= now - Z.of_N 1 * 86400000000
  /\ exists (db1 : Store) (resp1 resp2 : Response),
       delete_cleanup now req_query db = Some (db1, resp1)
       /\ delete_cleanup now req_query db1 = Some (db1, resp2)
       /\ status resp2 = 200
       /\ field "deleted" (body resp2) = VNum 0.
Proof.
  intros req_query db now.
  assert (days_is req_query "1" 1) as Hd.
  { apply (days_given req_query "1" 1);
      [reflexivity | reflexivity | unfold interval_days_max; lia]. }
  assert (timestamp_min <= now - Z.of_N 1 * 86400000000) as Hmin.
  { vm_compute. discriminate. }
  split; [exact Hd|]. split; [exact Hmin|].
  exact (cleanup_idempotent now req_query db "1" 1 Hd Hmin).
Defined.

(** X12.  Cleanup composes with history: after a cleanup, every row of a
    later history answer shows a reading that was stored before the cleanup,
    and its [timestamp] column is not before the instant the cleanup cut
    at. *)
Theorem cleanup_then_history (now : Z) (req_query : gmap string jsval)
    (db : Store) (s : string) (d : N)
    (p : string) (req_query' : gmap string jsval) (db1 db2 : Store)
    (resp1 resp2 : Response) :
  days_is req_query s d ->
  timestamp_min <= now - Z.of_N d * 86400000000 ->
  delete_cleanup now req_query db = Some (db1, resp1) ->
  get_moisture p req_query' db1 = Some (db2, resp2) ->
  status resp2 = 200 ->
  exists data : list jsval,
    field "data" (body resp2) = VArr data
    /\ forall row, row ∈ data ->
         (exists t, field "timestamp" row = VDate t
                    /\ now - Z.of_N d * 86400000000 <= t)
         /\ exists r, r ∈ rows db /\ shows_reading row r.
Proof.
  intros Hd Hmin Hrun1 Hrun2 Hst.
  rewrite (delete_cleanup_ok now req_query db s d Hd Hmin) in Hrun1.
  injection Hrun1 as <- _.
  apply get_moisture_cases in Hrun2 as (-> & [(n & _ & ->) | (msg & ->)]);
    [|discriminate].
  eexists. split; [reflexivity|].
  intros row Hrow. apply list_elem_of_fmap in Hrow as (r & -> & Hr).
  apply select_history_elem in Hr as (Hr & _). simpl in Hr.
  apply list_elem_of_filter in Hr as (Hkeep & Hr).
  split.
  - exists (timestamp r). split; [done|].
    unfold older_than, microseconds_per_day in Hkeep. lia.
  - exists r. split; [done|]. by repeat split.
Qed.

Lemma cleanup_then_history_witness :
  let req_query : gmap string jsval := {[ "days" := VStr "1" ]} in
  let old := mkReading 1 "A" None 500 45 10 in
  let new := mkReading 2 "A" None 300 20 86400000020 in
  let db := mkStore [old; new] 3 in
  let db1 := mkStore [new] 3 in
  let now := 86400000015 in
  let resp1 := mkResponse 200
                 (VObj [("success", VBool true);
                        ("deleted", VNum 1);
                        ("message", VStr "Deleted readings older than 1 days")]) in
  let resp2 := mkResponse 200 (history_body "A" [new]) in
    delete_cleanup now req_query db = Some (db1, resp1)
    /\ get_moisture "A" ∅ db1 = Some (db1, resp2)
    /\ exists data : list jsval,
         field "data" (body resp2) = VArr data
         /\ forall row, row ∈ data ->
              (exists t, field "timestamp" row = VDate t
                         /\ now - Z.of_N 1 * 86400000000 <= t)
              /\ exists r, r ∈ rows db /\ shows_reading row r.
Proof.
  intros req_query old new db db1 now resp1 resp2.
  assert (days_is req_query "1" 1) as Hd.
  { apply (days_given req_query "1" 1);
      [reflexivity | reflexivity | unfold interval_days_max; lia]. }
  assert (timestamp_min <= now - Z.of_N 1 * 86400000000) as Hmin.
  { vm_compute. discriminate. }
  assert (delete_cleanup now req_query db = Some (db1, resp1)) as Hrun1.
  { vm_compute. reflexivity. }
  assert (get_moisture "A" ∅ db1 = Some (db1, resp2)) as Hrun2.
  { vm_compute. reflexivity. }
  split; [exact Hrun1|]. split; [exact Hrun2|].
  exact (cleanup_then_history now req_query db "1" 1 "A" ∅ db1 db1 resp1 resp2
           Hd Hmin Hrun1 Hrun2 eq_refl).
Defined.

(** ** Ingest followed by the list requests *)

Lemma select_history_after_insert (p : string) (n : nat) (db : Store)
    (r : Reading) (next : Z) :
  pot_id r = p ->
  (forall x, x ∈ rows db -> pot_id x = p -> timestamp x < timestamp r) ->
  (1 <= n)%nat ->
  exists rest, select_history p n (mkStore (rows db ++ [r]) next) = r :: rest.
Proof.
  intros Hp Hold Hn. unfold select_history. cbn [rows].
  rewrite filter_app, (filter_cons _ r), filter_nil.
  destruct (decide (pot_id r = p)) as [_|]; [|done].
  set (m := filter (fun x => pot_id x = p) (rows db)).
  pose proof (merge_sort_Permutation newest_first (m ++ [r])) as Hperm.
  pose proof (StronglySorted_merge_sort newest_first (m ++ [r])) as Hsorted.
  destruct (merge_sort newest_first (m ++ [r])) as [|h t].
  { apply Permutation_nil_l in Hperm. by destruct m. }
  assert (h = r) as ->.
  { assert (h ∈ m ++ [r]) as Hh by (rewrite <- Hperm; left).
    assert (r ∈ h :: t) as Hr.
    { rewrite Hperm. apply elem_of_app. right. left. }
    apply elem_of_app in Hh as [Hh | Hh]; [|by apply list_elem_of_singleton in Hh].
    apply elem_of_cons in Hr as [-> | Hr]; [done|].
    apply list_elem_of_filter in Hh as (Hhp & Hh).
    specialize (Hold h Hh Hhp).
    apply StronglySorted_inv in Hsorted as (_ & Hall).
    rewrite Forall_forall in Hall. specialize (Hall r Hr).
    unfold newest_first in Hall. lia. }
  destruct n as [|n]; [lia|]. simpl. eauto.
Qed.

(** X13.  Ingest composes with history: once a reading of a pot is
    accepted at a store clock later than every reading the pot had, any
    history request for the pot with a limit of at least 1 lists the new row
    first. *)
Theorem ingest_then_history (now : Z) (req_body : gmap string jsval)
    (db : Store) (p : string) (a b : Q)
    (req_query : gmap string jsval) (n : nat) :
  req_body !! "pot_id" = Some (VStr p) -> p <> "" ->
  (let location := prop req_body "location" in
   truthy location = false \/ exists s, location = VStr s) ->
  req_body !! "raw_value" = Some (VNum a) ->
  req_body !! "moisture_percent" = Some (VNum b) ->
  (forall x, x ∈ rows db -> pot_id x = p -> timestamp x < now) ->
  limit_is req_query n -> (1 <= n)%nat ->
  exists (r : Reading) (db' : Store) (resp : Response) (rest : list Reading),
    post_moisture now req_body db = Some (db', resp)
    /\ status resp = 201
    /\ field "data" (body resp) = row_star r
    /\ get_moisture p req_query db'
       = Some (db', mkResponse 200 (history_body p (r :: rest))).
Proof.
  intros Hp Hne Hloc Ha Hb Hold Hlim Hn.
  pose proof (post_moisture_stores now req_body db p a b Hp Hne Hloc Ha Hb)
    as Hrun. cbv zeta in Hrun.
  set (r := mkReading (next_id db) p
              (stored_location (prop req_body "location")) a b now) in *.
  destruct (select_history_after_insert p n db r (next_id db + 1))
    as (rest & Hsel); [done | done | done |].
  eexists r, _, _, rest. split; [exact Hrun|]. split; [done|]. split; [done|].
  by rewrite (get_moisture_ok p req_query _ n Hlim), Hsel.
Qed.

Lemma ingest_then_history_witness :
  let req_body : gmap string jsval :=
    {[ "pot_id" := VStr "A"; "raw_value" := VNum 512;
       "moisture_percent" := VNum 40 ]} in
  let req_query : gmap string jsval := {[ "limit" := VStr "1" ]} in
  let db := mkStore [mkReading 1 "A" None 500 45 10;
                     mkReading 2 "B" None 300 20 200] 3 in
  exists (r : Reading) (db' : Store) (resp : Response) (rest : list Reading),
    post_moisture 99 req_body db = Some (db', resp)
    /\ status resp = 201
    /\ field "data" (body resp) = row_star r
    /\ get_moisture "A" req_query db'
       = Some (db', mkResponse 200 (history_body "A" (r :: rest))).
Proof.
  intros req_body req_query db.
  apply (ingest_then_history 99 req_body db "A" 512 40 req_query 1);
    [reflexivity | discriminate | left; reflexivity | reflexivity
    | reflexivity | | | lia].
  - intros x Hx Hpot. apply list_elem_of_In in Hx. simpl in Hx.
    destruct Hx as [<- | [<- | []]]; [simpl; lia | discriminate Hpot].
  - apply (limit_given req_query "1" 1);
      [reflexivity | reflexivity | unfold bigint_max; lia].
Defined.

(** X14.  Ingest composes with the latest snapshot: once a reading of a pot
    is accepted at a store clock later than every reading the pot had, the
    snapshot has a row for that [pot_id], and every snapshot row with that
    [pot_id] shows the [location], [raw_value], [moisture_percent] and
    [timestamp] of the new reading. *)
Theorem ingest_then_latest (now : Z) (req_body : gmap string jsval)
    (db : Store) (p : string) (a b : Q) :
  req_body !! "pot_id" = Some (VStr p) -> p <> "" ->
  (let location := prop req_body "location" in
   truthy location = false \/ exists s, location = VStr s) ->
  req_body !! "raw_value" = Some (VNum a) ->
  req_body !! "moisture_percent" = Some (VNum b) ->
  (forall x, x ∈ rows db -> pot_id x = p -> timestamp x < now) ->
  exists (db' : Store) (resp resp2 : Response) (data : list jsval),
    post_moisture now req_body db = Some (db', resp)
    /\ status resp = 201
    /\ get_pots_latest db' = Some (db', resp2)
    /\ status resp2 = 200
    /\ field "data" (body resp2) = VArr data
    /\ (exists row, row ∈ data /\ field "pot_id" row = VStr p)
    /\ forall row, row ∈ data -> field "pot_id" row = VStr p ->
         field "location" row
         = text_or_null (stored_location (prop req_body "location"))
         /\ field "raw_value" row = VNum a
         /\ field "moisture_percent" row = VNum b
         /\ field "timestamp" row = VDate now.
Proof.
  intros Hp Hne Hloc Ha Hb Hold.
  pose proof (post_moisture_stores now req_body db p a b Hp Hne Hloc Ha Hb)
    as Hrun. cbv zeta in Hrun.
  set (r := mkReading (next_id db) p
              (stored_location (prop req_body "location")) a b now) in *.
  set (db' := mkStore (rows db ++ [r]) (next_id db + 1)) in *.
  destruct (select_latest_spec db') as (HA & HB & _).
  assert (forall x, x ∈ select_latest db' -> pot_id x = p -> x = r) as Honly.
  { intros x Hx Hpot. destruct (HA x Hx) as (Hin & Hmax).
    apply elem_of_app in Hin as [Hin | Hin];
      [|by apply list_elem_of_singleton in Hin].
    exfalso. specialize (Hold x Hin Hpot).
    assert (timestamp r <= timestamp x) as Hle.
    { apply Hmax; [|by rewrite Hpot].
      apply elem_of_app. right. left. }
    simpl in Hle. lia. }
  eexists db', _, _, (row_latest <$> select_latest db').
  split; [exact Hrun|]. split; [done|].
  split; [apply get_pots_latest_ok|]. split; [done|]. split; [done|]. split.
  - destruct (HB r) as (x & Hx & Hpot).
    { apply elem_of_app. right. left. }
    exists (row_latest x). split; [by apply list_elem_of_fmap_2|].
    simpl. by rewrite Hpot.
  - intros row Hrow Hrp. apply list_elem_of_fmap in Hrow as (x & -> & Hx).
    simpl in Hrp. injection Hrp as Hpot.
    by rewrite (Honly x Hx Hpot).
Qed.

Lemma ingest_then_latest_witness :
  let req_body : gmap string jsval :=
    {[ "pot_id" := VStr "A"; "raw_value" := VNum 512;
       "moisture_percent" := VNum 40 ]} in
  let db := mkStore [mkReading 1 "A" None 500 45 10;
                     mkReading 2 "B" None 300 20 200] 3 in
  exists (db' : Store) (resp resp2 : Response) (data : list jsval),
    post_moisture 99 req_body db = Some (db', resp)
    /\ status resp = 201
    /\ get_pots_latest db' = Some (db', resp2)
    /\ status resp2 = 200
    /\ field "data" (body resp2) = VArr data
    /\ (exists row, row ∈ data /\ field "pot_id" row = VStr "A")
    /\ forall row, row ∈ data -> field "pot_id" row = VStr "A" ->
         field "location" row
         = text_or_null (stored_location (prop req_body "location"))
         /\ field "raw_value" row = VNum 512
         /\ field "moisture_percent" row = VNum 40
         /\ field "timestamp" row = VDate 99.
Proof.
  intros req_body db.
  apply (ingest_then_latest 99 req_body db "A" 512 40);
    [reflexivity | discriminate | left; reflexivity | reflexivity
    | reflexivity |].
  intros x Hx Hpot. apply list_elem_of_In in Hx. simpl in Hx.
  destruct Hx as [<- | [<- | []]]; [simpl; lia | discriminate Hpot].
Defined.

(** X15.  Ingest composes with the inventory: once a reading is accepted,
    the inventory has a row with its [pot_id] and stored [location] whose
    [reading_count] spells one more than the number of readings that pair
    had. *)
Theorem ingest_then_inventory (now : Z) (req_body : gmap string jsval)
    (db : Store) (p : string) (a b : Q) :
  req_body !! "pot_id" = Some (VStr p) -> p <> "" ->
  (let location := prop req_body "location" in
   truthy location = false \/ exists s, location = VStr s) ->
  req_body !! "raw_value" = Some (VNum a) ->
  req_body !! "moisture_percent" = Some (VNum b) ->
  let stored := stored_location (prop req_body "location") in
  exists (db' : Store) (resp resp2 : Response) (data : list jsval)
         (row : jsval) (s : string),
    post_moisture now req_body db = Some (db', resp)
    /\ status resp = 201
    /\ get_pots db' = Some (db', resp2)
    /\ status resp2 = 200
    /\ field "data" (body resp2) = VArr data
    /\ row ∈ data
    /\ field "pot_id" row = VStr p
    /\ field "location" row = text_or_null stored
    /\ field "reading_count" row = VStr s
    /\ digits_in s
       = Some (N.of_nat
                 (S (length (filter (fun x => pot_id x = p /\ location x = stored)
                               (rows db))))).
Proof.
  intros Hp Hne Hloc Ha Hb stored.
  pose proof (post_moisture_stores now req_body db p a b Hp Hne Hloc Ha Hb)
    as Hrun. cbv zeta in Hrun. fold stored in Hrun.
  set (r := mkReading (next_id db) p stored a b now) in *.
  set (db' := mkStore (rows db ++ [r]) (next_id db + 1)) in *.
  set (g := summarise (rows db') (group_key r)).
  assert (g ∈ select_pots db') as Hg.
  { rewrite select_pots_unsorted. apply list_elem_of_fmap.
    exists (group_key r). split; [done|].
    apply elem_of_remove_dups, list_elem_of_fmap. exists r. split; [done|].
    apply elem_of_app. right. left. }
  assert (reading_count g
          = S (length (filter (fun x => pot_id x = p /\ location x = stored)
                         (rows db)))) as Hcount.
  { unfold g. cbn [summarise reading_count]. unfold group_of. cbn [rows db'].
    rewrite filter_app, (filter_cons _ r), filter_nil.
    destruct (decide (group_key r = group_key r)) as [_|]; [|done].
    rewrite length_app. cbn [length].
    rewrite (list_filter_iff (fun x => group_key x = group_key r)
               (fun x => pot_id x = p /\ location x = stored)); [lia|].
    intros x. unfold group_key. cbn. split; [by intros [= -> ->]|].
    by intros [-> ->]. }
  eexists db', _, _, (row_pot <$> select_pots db'), (row_pot g), _.
  split; [exact Hrun|]. split; [done|].
  split; [apply get_pots_ok|]. split; [done|]. split; [done|].
  split; [by apply list_elem_of_fmap_2|].
  split; [done|]. split; [done|]. split; [reflexivity|].
  rewrite <- Hcount. apply digits_in_decimal_of_nat.
Qed.

Lemma ingest_then_inventory_witness :
  let req_body : gmap string jsval :=
    {[ "pot_id" := VStr "A"; "raw_value" := VNum 512;
       "moisture_percent" := VNum 40 ]} in
  let db := mkStore [mkReading 1 "A" None 500 45 10;
                     mkReading 2 "A" (Some "porch") 300 20 200] 3 in
  let stored := stored_location (prop req_body "location") in
  exists (db' : Store) (resp resp2 : Response) (data : list jsval)
         (row : jsval) (s : string),
    post_moisture 99 req_body db = Some (db', resp)
    /\ status resp = 201
    /\ get_pots db' = Some (db', resp2)
    /\ status resp2 = 200
    /\ field "data" (body resp2) = VArr data
    /\ row ∈ data
    /\ field "pot_id" row = VStr "A"
    /\ field "location" row = text_or_null stored
    /\ field "reading_count" row = VStr s
    /\ digits_in s
       = Some (N.of_nat
                 (S (length (filter (fun x => pot_id x = "A" /\ location x = stored)
                               (rows db))))).
Proof.
  intros req_body db.
  apply (ingest_then_inventory 99 req_body db "A" 512 40);
    [reflexivity | discriminate | left; reflexivity | reflexivity
    | reflexivity].
Defined.

(** ** The [id]s of the table *)

(** X16.  The ingest and the cleanup requests keep the [id]s of the table
    pairwise distinct and below the next value of the sequence: a new row
    takes the next value, and cleanup only removes rows. *)
Theorem ids_stay_fresh :
  (forall now req_body db db' resp,
     ids_fresh db -> post_moisture now req_body db = Some (db', resp) ->
     ids_fresh db')
  /\ (forall now req_query db db' resp,
        ids_fresh db -> delete_cleanup now req_query db = Some (db', resp) ->
        ids_fresh db').
Proof.
  split.
  - intros now req_body db db' resp (Hdup & Hbelow) Hrun.
    apply post_moisture_cases in Hrun
      as [(_ & -> & _) | (_ & [(r & _ & -> & Hid & _) |
                               (msg & _ & Hrows & Hnext)])];
      [done | |].
    2:{ unfold ids_fresh. rewrite Hrows. split; [done|].
        intros x Hx. specialize (Hbelow x Hx). lia. }
    split; cbn [rows next_id].
    + rewrite fmap_app. apply NoDup_app. split; [done|]. split.
      * intros i Hi Hr. apply list_elem_of_singleton in Hr. subst i.
        apply list_elem_of_fmap in Hi as (x & Hx & Hin).
        specialize (Hbelow x Hin). lia.
      * apply NoDup_singleton.
    + intros x Hx. apply elem_of_app in Hx as [Hx | Hx].
      * specialize (Hbelow x Hx). lia.
      * apply list_elem_of_singleton in Hx. subst x. lia.
  - intros now req_query db db' resp (Hdup & Hbelow) Hrun.
    apply delete_cleanup_cases in Hrun
      as [(days & threshold & -> & _) | (-> & _)]; [|done].
    split; cbn [rows next_id].
    + apply (sublist_NoDup _ (id <$> rows db)); [done|].
      apply fmap_sublist, sublist_filter.
    + intros x Hx. apply list_elem_of_filter in Hx as (_ & Hx).
      by apply Hbelow.
Qed.

Lemma ids_stay_fresh_witness :
  let req_body : gmap string jsval :=
    {[ "pot_id" := VStr "A"; "raw_value" := VNum 512;
       "moisture_percent" := VNum 40 ]} in
  let db := mkStore [mkReading 1 "A" None 500 45 10] 2 in
  let r := mkReading 2 "A" None 512 40 99 in
  let db' := mkStore [mkReading 1 "A" None 500 45 10; r] 3 in
  ids_fresh db /\ ids_fresh db'.
Proof.
  intros req_body db r db'.
  assert (ids_fresh db) as Hfresh.
  { split.
    - apply NoDup_singleton.
    - intros x Hx. apply list_elem_of_In in Hx. simpl in Hx.
      destruct Hx as [<- | []]. simpl. lia. }
  split; [exact Hfresh|].
  apply (proj1 ids_stay_fresh 99 req_body db db'
           (mkResponse 201 (VObj [("success", VBool true); ("data", row_star r)]))
           Hfresh).
  vm_compute. reflexivity.
Defined.

(** ** The two snapshots *)

(** X17.  The latest snapshot and the inventory are empty exactly when the
    table is: with no reading both answer with an empty [data], and with at
    least one reading neither does. *)
Theorem snapshots_empty_iff (db : Store) :
  exists latest pots : list jsval,
    get_pots_latest db
    = Some (db, mkResponse 200
                  (VObj [("success", VBool true);
                         ("count", num_of_nat (length latest));
                         ("data", VArr latest)]))
    /\ get_pots db
       = Some (db, mkResponse 200
                     (VObj [("success", VBool true);
                            ("count", num_of_nat (length pots));
                            ("data", VArr pots)]))
    /\ (latest = [] <-> rows db = [])
    /\ (pots = [] <-> rows db = []).
Proof.
  exists (row_latest <$> select_latest db), (row_pot <$> select_pots db).
  split; [by rewrite get_pots_latest_ok; unfold latest_body; rewrite length_fmap|].
  split; [by rewrite get_pots_ok; unfold pots_body; rewrite length_fmap|].
  destruct (select_latest_spec db) as (_ & HB & _).
  split; split.
  - intros Hnil. apply fmap_nil_inv in Hnil.
    destruct (rows db) as [|r l] eqn:Hrows; [done|].
    destruct (HB r) as (x & Hx & _); [left|].
    rewrite Hnil in Hx. by apply elem_of_nil in Hx.
  - intros Hrows. unfold select_latest. by rewrite Hrows.
  - intros Hnil. apply fmap_nil_inv in Hnil.
    destruct (rows db) as [|r l] eqn:Hrows; [done|].
    assert (group_key r ∈ pot_key <$> select_pots db) as Hin.
    { rewrite select_pots_keys, elem_of_remove_dups, Hrows. left. }
    rewrite Hnil in Hin. by apply elem_of_nil in Hin.
  - intros Hrows. unfold select_pots. by rewrite Hrows.
Qed.

(** X18.  The inventory never has fewer rows than the latest snapshot, and
    never more rows than the table has readings: there is one snapshot row
    per [pot_id] and one inventory row per ([pot_id], [location]) pair. *)
Theorem snapshot_sizes (db : Store) :
  exists latest pots : list jsval,
    (exists resp, get_pots_latest db = Some (db, resp)
                  /\ field "data" (body resp) = VArr latest)
    /\ (exists resp, get_pots db = Some (db, resp)
                     /\ field "data" (body resp) = VArr pots)
    /\ (length latest <= length pots)%nat
    /\ (length pots <= length (rows db))%nat.
Proof.
  exists (row_latest <$> select_latest db), (row_pot <$> select_pots db).
  split; [eexists; split; [apply get_pots_latest_ok | done]|].
  split; [eexists; split; [apply get_pots_ok | done]|].
  rewrite !length_fmap.
  destruct (select_latest_spec db) as (HA & _ & Hsorted).
  pose proof (select_pots_keys db) as Hkeys.
  set (keys := remove_dups (group_key <$> rows db)) in *.
  assert (length (select_pots db) = length keys) as Hlen.
  { by rewrite <- (Permutation_length Hkeys), length_fmap. }
  rewrite Hlen. split.
  - rewrite <- (length_fmap pot_id (select_latest db)).
    rewrite <- (length_fmap fst keys).
    apply submseteq_length, NoDup_submseteq.
    { by apply strictly_sorted_NoDup. }
    intros q Hq. apply list_elem_of_fmap in Hq as (x & -> & Hx).
    destruct (HA x Hx) as (Hin & _).
    apply list_elem_of_fmap. exists (group_key x). split; [done|].
    apply elem_of_remove_dups, list_elem_of_fmap. eauto.
  - rewrite <- (length_fmap group_key (rows db)).
    apply submseteq_length, NoDup_submseteq; [apply NoDup_remove_dups|].
    intros k. unfold keys. apply elem_of_remove_dups.
Qed.


(** ** Start-up configuration *)

Lemma env_or_fallback (env : gmap string string) (var : string)
    (fallback : jsval) :
  setting_is env var fallback (js_or (env_get env var) fallback).
Proof.
  unfold setting_is, js_or, env_get. split.
  - intros s -> Hs. simpl. by destruct (String.eqb_spec s "").
  - by intros [-> | ->].
Qed.

(** X19.  The listen port and every option of the connection pool is the
    value of its environment variable when that is set to a non-empty
    string, and its built-in default (3000, localhost, 5432, waterboy,
    postgres, postgres) when the variable is unset or empty. *)
Theorem configuration_defaults (env : gmap string string) :
  setting_is env "PORT" (VNum 3000) (PORT env)
  /\ setting_is env "DB_HOST" (VStr "localhost")
       (field "host" (pool_options env))
  /\ setting_is env "DB_PORT" (VNum 5432)
       (field "port" (pool_options env))
  /\ setting_is env "DB_NAME" (VStr "waterboy")
       (field "database" (pool_options env))
  /\ setting_is env "DB_USER" (VStr "postgres")
       (field "user" (pool_options env))
  /\ setting_is env "DB_PASSWORD" (VStr "postgres")
       (field "password" (pool_options env)).
Proof.
  repeat split; try (intros s Hs Hne); try (intros Hunset);
    first [ by apply (env_or_fallback env _ _) ].
Qed.

Lemma configuration_defaults_witness :
  let env : gmap string string := {[ "PORT" := "8080"; "DB_HOST" := "" ]} in
  PORT env = VStr "8080"
  /\ field "host" (pool_options env) = VStr "localhost".
Proof.
  intros env. split.
  - apply (proj1 (proj1 (configuration_defaults env)) "8080");
      [reflexivity | discriminate].
  - apply (proj2 (proj1 (proj2 (configuration_defaults env)))).
    right. reflexivity.
Defined.

(** ** Ingest followed by cleanup *)

(** X20.  Ingest composes with cleanup: a reading accepted at a store clock
    that is not before the instant a later cleanup cuts at is still in the
    table after that cleanup. *)
Theorem ingest_then_cleanup (t now : Z) (req_body : gmap string jsval)
    (db : Store) (p : string) (a b : Q)
    (req_query : gmap string jsval) (s : string) (d : N) :
  req_body !! "pot_id" = Some (VStr p) -> p <> "" ->
  (let location := prop req_body "location" in
   truthy location = false \/ exists s, location = VStr s) ->
  req_body !! "raw_value" = Some (VNum a) ->
  req_body !! "moisture_percent" = Some (VNum b) ->
  days_is req_query s d ->
  timestamp_min <= now - Z.of_N d * 86400000000 ->
  now - Z.of_N d * 86400000000 <= t ->
  exists (r : Reading) (db1 db2 : Store) (resp1 resp2 : Response),
    post_moisture t req_body db = Some (db1, resp1)
    /\ field "data" (body resp1) = row_star r
    /\ delete_cleanup now req_query db1 = Some (db2, resp2)
    /\ status resp2 = 200
    /\ r ∈ rows db2.
Proof.
  intros Hp Hne Hloc Ha Hb Hd Hmin Hcut.
  pose proof (post_moisture_stores t req_body db p a b Hp Hne Hloc Ha Hb)
    as Hrun1. cbv zeta in Hrun1.
  set (r := mkReading (next_id db) p
              (stored_location (prop req_body "location")) a b t) in *.
  set (db1 := mkStore (rows db ++ [r]) (next_id db + 1)) in *.
  pose proof (delete_cleanup_ok now req_query db1 s d Hd Hmin) as Hrun2.
  eexists r, db1, _, _, _. split; [exact Hrun1|]. split; [done|].
  split; [exact Hrun2|]. split; [done|].
  cbn [rows]. apply list_elem_of_filter. split.
  - unfold older_than, microseconds_per_day. simpl. lia.
  - apply elem_of_app. right. left.
Qed.

Lemma ingest_then_cleanup_witness :
  let req_body : gmap string jsval :=
    {[ "pot_id" := VStr "A"; "raw_value" := VNum 512;
       "moisture_percent" := VNum 40 ]} in
  let req_query : gmap string jsval := {[ "days" := VStr "1" ]} in
  let db := mkStore [mkReading 1 "A" None 500 45 10] 2 in
  exists (r : Reading) (db1 db2 : Store) (resp1 resp2 : Response),
    post_moisture 30 req_body db = Some (db1, resp1)
    /\ field "data" (body resp1) = row_star r
    /\ delete_cleanup 86400000015 req_query db1 = Some (db2, resp2)
    /\ status resp2 = 200
    /\ r ∈ rows db2.
Proof.
  intros req_body req_query db.
  apply (ingest_then_cleanup 30 86400000015 req_body db "A" 512 40
           req_query "1" 1);
    [reflexivity | discriminate | left; reflexivity | reflexivity
    | reflexivity | | vm_compute; discriminate | lia].
  apply (days_given req_query "1" 1);
    [reflexivity | reflexivity | unfold interval_days_max; lia].
Defined.
